(** * The generation proxy of [src/api/generate.ts]

    A shallow embedding of the request handler: model-name normalization,
    fallback-chain derivation, the upstream host allow-list and the
    handler itself, followed by the properties the specification states
    about them.

    JavaScript strings are sequences of UTF-16 code units; they are
    modelled as lists of code units so that [trim], [slice] and the
    regular expressions of the source see the same units as the
    program does. *)

From Stdlib Require Import List NArith ZArith QArith Bool String Ascii Lia.
From Stdlib Require Import Floats.SpecFloat.
Import ListNotations.
Close Scope Q_scope.

Set Implicit Arguments.
Set Warnings "-register-all".

(* ================================================================== *)
(** * Strings *)
(* ================================================================== *)

Definition char16 := N.
Definition jstr := list char16.

(** An ASCII literal of the source as a code-unit string. *)
Definition lit (s : string) : jstr := map N_of_ascii (list_ascii_of_string s).

(** [a === b] on strings. *)
Fixpoint jstr_eqb (a b : jstr) : bool :=
  match a, b with
  | [], [] => true
  | x :: a', y :: b' => (x =? y)%N && jstr_eqb a' b'
  | _, _ => false
  end.

(** [!s] on a string. *)
Definition is_empty (s : jstr) : bool :=
  match s with [] => true | _ :: _ => false end.

(** The code units that [String.prototype.trim] removes: ECMAScript
    WhiteSpace (TAB, VT, FF, SP, NBSP, ZWNBSP and category Zs) and
    LineTerminator (LF, CR, LS, PS). *)
Definition isWhiteSpace (c : char16) : bool :=
  (((9 <=? c) && (c <=? 13)) || (c =? 32) || (c =? 160) || (c =? 5760)
   || ((8192 <=? c) && (c <=? 8202)) || (c =? 8232) || (c =? 8233)
   || (c =? 8239) || (c =? 8287) || (c =? 12288) || (c =? 65279))%N.

Fixpoint dropWhile (f : char16 -> bool) (s : jstr) : jstr :=
  match s with
  | [] => []
  | c :: s' => if f c then dropWhile f s' else s
  end.

Definition trimStart (s : jstr) : jstr := dropWhile isWhiteSpace s.
Definition trimEnd (s : jstr) : jstr := rev (dropWhile isWhiteSpace (rev s)).
Definition trim (s : jstr) : jstr := trimEnd (trimStart s).

(** [s.startsWith(p)] *)
Fixpoint startsWith (s p : jstr) {struct p} : bool :=
  match p, s with
  | [], _ => true
  | _ :: _, [] => false
  | a :: p', b :: s' => (a =? b)%N && startsWith s' p'
  end.

(** [s.endsWith(p)] *)
Definition endsWith (s p : jstr) : bool := startsWith (rev s) (rev p).

(** [s.includes(p)] *)
Fixpoint includes (s p : jstr) : bool :=
  startsWith s p ||
  match s with
  | [] => false
  | _ :: s' => includes s' p
  end.

(** [s.slice(n)] and [s.slice(0, n)] for a literal [n >= 0]. *)
Definition slice_from (n : nat) (s : jstr) : jstr := skipn n s.
Definition slice_to (n : nat) (s : jstr) : jstr := firstn n s.

(** [String(v || '')] for a value that is a string or absent. *)
Definition String_or_empty (v : option jstr) : jstr :=
  match v with
  | Some s => s
  | None => []
  end.

(* ------------------------------------------------------------------ *)
(** ** The regular expressions of the source *)

Definition is_digit (c : char16) : bool := ((48 <=? c) && (c <=? 57))%N.

(** [/^\d+(?:\.\d+)*$/]: [need] holds where the next unit must be a
    digit (at the start and right after a dot). *)
Fixpoint re_dotted (need : bool) (s : jstr) : bool :=
  match s with
  | [] => negb need
  | c :: s' =>
      if is_digit c then re_dotted false s'
      else if (c =? 46)%N && negb need then re_dotted true s'
      else false
  end.

Definition test_dotted_numeric (s : jstr) : bool := re_dotted true s.

(** The units that [.] does not match: the line terminators. *)
Definition isLineTerminator (c : char16) : bool :=
  ((c =? 10) || (c =? 13) || (c =? 8232) || (c =? 8233))%N.

(** [/^4o(?:-.+)?$/] *)
Definition test_4o (s : jstr) : bool :=
  match s with
  | 52%N :: 111%N :: [] => true
  | 52%N :: 111%N :: 45%N :: c :: rest =>
      forallb (fun x => negb (isLineTerminator x)) (c :: rest)
  | _ => false
  end.

(** Canonicalize of a case-insensitive pattern without the [u] flag, as
    far as the patterns of this program can observe it: their units are
    ASCII letters, the space and CJK ideographs, which only the two
    ASCII cases of a letter, or the unit itself, canonicalize to. *)
Definition canonicalize (c : char16) : char16 :=
  if ((97 <=? c) && (c <=? 122))%N then (c - 32)%N else c.

Fixpoint startsWith_i (s p : jstr) {struct p} : bool :=
  match p, s with
  | [], _ => true
  | _ :: _, [] => false
  | a :: p', b :: s' => (canonicalize a =? canonicalize b)%N && startsWith_i s' p'
  end.

(** [/p/i.test(s)] for a pattern that is a plain literal. *)
Fixpoint test_i (p s : jstr) : bool :=
  startsWith_i s p ||
  match s with
  | [] => false
  | _ :: s' => test_i p s'
  end.

(** [/model/i] and the CJK word for model, U+6A21 U+578B. *)
Definition re_model : jstr := lit "model".
Definition re_model_cjk : jstr := [27169; 22411]%N.

(** The alternatives of the not-found pattern, in source order:
    not found, does not exist, then five Chinese phrasings, then
    No available channels. *)
Definition not_found_phrasings : list jstr :=
  [ lit "not found";
    lit "does not exist";
    [19981; 23384; 22312]%N;
    [26410; 25214; 21040]%N;
    [26410; 21551; 29992]%N;
    [23578; 26410; 19978; 32447]%N;
    [26410; 24320; 25918]%N;
    lit "No available channels" ].

Definition test_not_found (s : jstr) : bool :=
  existsb (fun p => test_i p s) not_found_phrasings.

(** [s.replace(/\/+$/, '')]: the leftmost run of slashes that reaches
    the end of the string is removed. *)
Definition strip_trailing_slashes (s : jstr) : jstr :=
  rev (dropWhile (fun c => (c =? 47)%N) (rev s)).

(* ================================================================== *)
(** * Model names *)
(* ================================================================== *)

Definition normalizeModel (input : option jstr) : jstr :=
  let m := trim (String_or_empty input) in
  if is_empty m then m
  else if startsWith m (lit "gpt-") || startsWith m (lit "o1") then m
  else if startsWith m (lit "gpt") then lit "gpt-" ++ slice_from 3 m
  else if test_dotted_numeric m then lit "gpt-" ++ m
  else if test_4o m then lit "gpt-" ++ m
  else m.

(** The family branches of [getModelFallbacks]: what the chain of
    [push] calls leaves in [fallbacks]. *)
Definition family_fallbacks (m : jstr) : list jstr :=
  let fallbacks : list jstr := [] in
  if startsWith m (lit "gpt-4.1") then
    fallbacks ++ [lit "gpt-4o-mini"; lit "gpt-4o"; lit "gpt-4.1-mini"]
  else if startsWith m (lit "gpt-4o") then
    fallbacks ++ [lit "gpt-4o-mini"; lit "gpt-4o"]
  else if startsWith m (lit "gpt-4") then
    fallbacks ++ [lit "gpt-4o-mini"; lit "gpt-4o"]
  else if startsWith m (lit "o1") then
    fallbacks ++ [lit "gpt-4o-mini"; lit "gpt-4o"]
  else if includes m (lit "gemini-2.0-flash") then
    fallbacks ++ [lit "gemini-1.5-flash"; lit "gemini-1.5-pro"]
  else if includes m (lit "gemini") then
    fallbacks ++ [lit "gemini-1.5-flash"; lit "gemini-1.5-pro"; lit "gemini-2.0-flash-exp"]
  else fallbacks.

(** [Array.from(new Set(l))]: a Set keeps the insertion order of the
    first occurrence of each element. *)
Definition Set_add (acc : list jstr) (x : jstr) : list jstr :=
  if existsb (jstr_eqb x) acc then acc else acc ++ [x].

Definition Array_from_Set (l : list jstr) : list jstr :=
  fold_left Set_add l [].

Definition getModelFallbacks (model : jstr) : list jstr :=
  let m := trim (String_or_empty (Some model)) in
  if is_empty m then []
  else
    Array_from_Set
      (filter (fun x => negb (is_empty x) && negb (jstr_eqb x m))
              (family_fallbacks m)).

(** The table of section 4.4 of the specification, row by row: the test
    on the normalized model and the candidates of the row. *)
Definition spec_family_table : list ((jstr -> bool) * list jstr) :=
  [ (fun m => startsWith m (lit "gpt-4.1"),
     [lit "gpt-4o-mini"; lit "gpt-4o"; lit "gpt-4.1-mini"]);
    (fun m => startsWith m (lit "gpt-4o"), [lit "gpt-4o-mini"; lit "gpt-4o"]);
    (fun m => startsWith m (lit "gpt-4"), [lit "gpt-4o-mini"; lit "gpt-4o"]);
    (fun m => startsWith m (lit "o1"), [lit "gpt-4o-mini"; lit "gpt-4o"]);
    (fun m => includes m (lit "gemini-2.0-flash"),
     [lit "gemini-1.5-flash"; lit "gemini-1.5-pro"]);
    (fun m => includes m (lit "gemini"),
     [lit "gemini-1.5-flash"; lit "gemini-1.5-pro"; lit "gemini-2.0-flash-exp"]) ].

(** First matching row wins; no row, no candidates. *)
Fixpoint spec_first_match (rows : list ((jstr -> bool) * list jstr)) (m : jstr)
  : list jstr :=
  match rows with
  | [] => []
  | (test, candidates) :: rows' =>
      if test m then candidates else spec_first_match rows' m
  end.

Definition spec_candidates (m : jstr) : list jstr :=
  spec_first_match spec_family_table m.

(* ================================================================== *)
(** * Upstream hosts *)
(* ================================================================== *)

Definition allowedHosts : list jstr :=
  [ lit "api.vectorengine.ai"; lit "generativelanguage.googleapis.com" ].

(** [allowedHosts.has(h)] *)
Definition allowedHosts_has (h : jstr) : bool := existsb (jstr_eqb h) allowedHosts.

(** A computation of the runtime either returns or throws; [Throw]
    carries the [message] of the thrown error. *)
Inductive result (A : Type) : Type :=
| Ok (a : A)
| Throw (message : jstr).

Arguments Throw {A} message.

Definition rbind {A B : Type} (r : result A) (k : A -> result B) : result B :=
  match r with
  | Ok a => k a
  | Throw msg => Throw msg
  end.

Notation "'let?' x ':=' e 'in' k" := (rbind e (fun x => k))
  (at level 10, x name, e at level 100, k at level 200).

(** The parts of a parsed URL object that the program reads. *)
Record URL : Type := {
  href : jstr;
  protocol : jstr;
  hostname : jstr;
  port : jstr;
  pathname : jstr
}.

(* ================================================================== *)
(** * Values read from upstream bodies *)
(* ================================================================== *)

(** What [JSON.parse] can return. An object is given by its own
    properties; [lookup] returns the first entry of a key, so a parser
    lists the surviving value of a repeated key first. *)
Inductive value : Type :=
| VNull
| VBool (b : bool)
| VNum (x : spec_float)
| VStr (s : jstr)
| VArr (items : list value)
| VObj (props : list (jstr * value)).

Fixpoint lookup (key : jstr) (props : list (jstr * value)) : option value :=
  match props with
  | [] => None
  | (k, v) :: props' => if jstr_eqb k key then Some v else lookup key props'
  end.

(** [v?.key] for one of the property names the program reads (choices,
    message, content, error, candidates, parts, text): none of them is
    found on a prototype, so only an object's own property answers;
    [None] is [undefined]. *)
Definition get (v : option value) (key : jstr) : option value :=
  match v with
  | Some (VObj props) => lookup key props
  | _ => None
  end.

(** [v?.[0]]: the first element of an array, the first unit of a
    string, the property named 0 of an object. *)
Definition get0 (v : option value) : option value :=
  match v with
  | Some (VArr items) => hd_error items
  | Some (VStr (c :: _)) => Some (VStr [c])
  | Some (VObj props) => lookup (lit "0") props
  | _ => None
  end.

(** ToBoolean *)
Definition truthy (v : option value) : bool :=
  match v with
  | None => false
  | Some VNull => false
  | Some (VBool b) => b
  | Some (VNum (S754_zero _)) => false
  | Some (VNum S754_nan) => false
  | Some (VNum _) => true
  | Some (VStr s) => negb (is_empty s)
  | Some (VArr _) => true
  | Some (VObj _) => true
  end.

(** [a || b] where [b] is defined. *)
Definition or_else (a : option value) (b : value) : value :=
  match a with
  | Some v => if truthy a then v else b
  | None => b
  end.

(** [a ?? b] *)
Definition nullish_else (a : value) (b : value) : value :=
  match a with
  | VNull => b
  | _ => a
  end.

(** [json?.candidates?.[0]?.content?.parts] *)
Definition geminiParts (json : value) : option value :=
  get (get (get0 (get (Some json) (lit "candidates"))) (lit "content"))
      (lit "parts").

(** [p?.text || ''] *)
Definition partText (p : value) : value :=
  or_else (get (Some p) (lit "text")) (VStr []).

(** The text of a successful chat-completions response (line 151). *)
Definition chatText (json : value) : value :=
  or_else
    (get (get (get0 (get (Some json) (lit "choices"))) (lit "message"))
         (lit "content"))
    (VStr []).

(** [Array.prototype.join]: [null] elements give the empty string, the
    others are converted by [f]. *)
Fixpoint join_with (f : value -> result jstr) (sep : jstr) (l : list value)
  : result jstr :=
  match l with
  | [] => Ok []
  | x :: tl =>
      let? e := match x with VNull => Ok [] | _ => f x end in
      match tl with
      | [] => Ok e
      | _ :: _ => let? r := join_with f sep tl in Ok (e ++ sep ++ r)
      end
  end.

(* ================================================================== *)
(** * The runtime the handler runs on *)
(* ================================================================== *)

(** The body handed to [JSON.stringify] for the upstream call. *)
Inductive UpstreamBody : Type :=
| ChatCompletions (model : jstr) (messages : list (jstr * jstr))
    (stream : bool) (temperature top_p : Q)
| GenerateContent (systemInstruction_parts : list jstr)
    (contents : list (jstr * list jstr)) (temperature topP : Q)
    (thinkingConfig : option (bool * Z)).

(** The arguments of one [fetch] call. *)
Record FetchRequest : Type := {
  fetch_url : jstr;
  fetch_method : jstr;
  fetch_headers : list (jstr * jstr);
  fetch_body : UpstreamBody
}.

(** What the program reads of an upstream response: its status, its
    content-type header ([None] when absent) and its text. *)
Record UpstreamRes : Type := {
  up_status : Z;
  up_content_type : option jstr;
  up_text : jstr
}.

(** [upstreamRes.ok]: the status is in the 200 to 299 range. *)
Definition ok (r : UpstreamRes) : bool :=
  ((200 <=? up_status r) && (up_status r <=? 299))%Z.

(** The platform functions the program calls. [fetch] stands for the
    call together with the reading of the body by [text()]; it answers
    from a state of the outside world and may throw. [new_URL] and
    [JSON_parse] throw on malformed input; the messages of the errors
    the runtime throws are its own. *)
Record Runtime : Type := {
  World : Type;
  fetch : FetchRequest -> World -> result UpstreamRes * World;
  new_URL : jstr -> result URL;
  JSON_parse : jstr -> result value;
  Number_toString : spec_float -> jstr;
  not_primitive_message : jstr
}.

(** The [model] of the body of a chat-completions call. *)
Definition attempted_model (rq : FetchRequest) : option jstr :=
  match fetch_body rq with
  | ChatCompletions m _ _ _ _ => Some m
  | GenerateContent _ _ _ _ _ => None
  end.

(* ================================================================== *)
(** * The handler *)
(* ================================================================== *)

Record Body : Type := {
  model : option jstr;
  systemInstruction : option jstr;
  userPrompt : option jstr;
  enableThinking : option bool;
  proxyEndpoint : option jstr
}.

(** What the handler reads of [req]. *)
Record Request : Type := {
  method : jstr;
  authorization : option jstr;
  body : option Body
}.

(** The three shapes of object passed to [res.json]. *)
Inductive ResBody : Type :=
| ErrorOnly (error : jstr)
| Generated (text : value) (usedModel : jstr)
| UpstreamFailure (error : value) (upstreamStatus : Z)
    (upstreamContentType : jstr) (detail : value) (triedModels : list jstr).

Record Response : Type := {
  res_status : Z;
  res_json : ResBody
}.

(** The variables that the fallback loop assigns on every attempt. *)
Record Last : Type := {
  lastStatus : Z;
  lastRaw : jstr;
  lastContentType : jstr;
  lastJson : value
}.

(** How the fallback loop ends: by a [return] of the handler, or by
    falling out of the loop (exhaustion or [break]). *)
Inductive LoopExit : Type :=
| Returned (r : Response)
| Fell (l : Last).

Definition default_endpoint : jstr := lit "https://api.vectorengine.ai".

(** The [headers] object before the credential is added. *)
Definition json_headers : list (jstr * jstr) :=
  [ (lit "Content-Type", lit "application/json");
    (lit "Accept", lit "application/json") ].

(** The headers of the OpenAI-compatible family (lines 112-113). *)
Definition openaiHeaders (rawToken : jstr) : list (jstr * jstr) :=
  json_headers ++ [ (lit "Authorization", lit "Bearer " ++ rawToken);
                    (lit "X-API-Key", rawToken) ].

(** The headers of the Gemini-compatible family (lines 208-213). *)
Definition geminiHeaders (host rawToken : jstr) : list (jstr * jstr) :=
  if jstr_eqb host (lit "generativelanguage.googleapis.com")
  then json_headers ++ [ (lit "x-goog-api-key", rawToken) ]
  else json_headers ++ [ (lit "Authorization", lit "Bearer " ++ rawToken);
                         (lit "X-API-Key", rawToken) ].

(** The [baseUrl] of the OpenAI-compatible family (lines 104-109);
    [replace(/\/v1beta$/, '/v1')] on a string that ends with /v1beta
    replaces its last seven units. *)
Definition openaiBaseUrl (endpoint : jstr) : jstr :=
  if endsWith endpoint (lit "/v1beta") then
    firstn (List.length endpoint - 7) endpoint ++ lit "/v1"
  else if negb (endsWith endpoint (lit "/v1")) then endpoint ++ lit "/v1"
  else endpoint.

(** The [baseUrl] of the Gemini-compatible family (line 181). *)
Definition geminiBaseUrl (endpoint : jstr) : jstr :=
  if includes endpoint (lit "/v1beta") then endpoint
  else endpoint ++ lit "/v1beta".

(** The [fetch] call of the fallback loop for the candidate [m]
    (lines 122-137). *)
Definition chatRequest (url : jstr) (headers : list (jstr * jstr))
    (systemInstruction userPrompt m : jstr) : FetchRequest :=
  {| fetch_url := url;
     fetch_method := lit "POST";
     fetch_headers := headers;
     fetch_body :=
       ChatCompletions m
         [(lit "system", systemInstruction); (lit "user", userPrompt)]
         false (7 # 10)%Q (95 # 100)%Q |}.

(** The [fetch] call of the Gemini-compatible family (lines 183-220). *)
Definition geminiRequest (urlObj : URL) (model systemInstruction userPrompt : jstr)
    (enableThinking : bool) (rawToken : jstr) : FetchRequest :=
  let supportsThinking := includes model (lit "thinking") in
  {| fetch_url := href urlObj;
     fetch_method := lit "POST";
     fetch_headers := geminiHeaders (hostname urlObj) rawToken;
     fetch_body :=
       GenerateContent [systemInstruction] [(lit "user", [userPrompt])]
         (7 # 10)%Q (95 # 100)%Q
         (if enableThinking && supportsThinking then Some (true, 16000%Z)
          else None) |}.

Section WithRuntime.

Variable rt : Runtime.

(** ToString on a parsed value. An object with an own [toString]
    property, which parsed JSON cannot make callable, has no primitive
    value: the inherited [valueOf] returns the object itself, and the
    conversion throws a TypeError. *)
Fixpoint ToString (v : value) : result jstr :=
  match v with
  | VNull => Ok (lit "null")
  | VBool true => Ok (lit "true")
  | VBool false => Ok (lit "false")
  | VNum x => Ok (Number_toString rt x)
  | VStr s => Ok s
  | VArr items => join_with ToString (lit ",") items
  | VObj props =>
      match lookup (lit "toString") props with
      | Some _ => Throw (not_primitive_message rt)
      | None => Ok (lit "[object Object]")
      end
  end.

(** The [try { JSON.parse(raw) } catch { null }] closures. *)
Definition parse_or_null (raw : jstr) : value :=
  match JSON_parse rt raw with
  | Ok v => v
  | Throw _ => VNull
  end.

Definition getUpstreamBase (endpoint : jstr) : result jstr :=
  match new_URL rt endpoint with
  | Throw _ => Throw (lit "Invalid proxyEndpoint")
  | Ok url =>
      if negb (allowedHosts_has (hostname url)) then
        Throw (lit "proxyEndpoint host not allowed")
      else Ok (strip_trailing_slashes endpoint)
  end.

(** The state threaded through the handler: the outside world and the
    [fetch] calls made so far, each with its outcome, oldest first. *)
Record St : Type := {
  world : World rt;
  calls : list (FetchRequest * result UpstreamRes)
}.

(** Handler code: it reads and updates the state and may throw. *)
Definition Eff (A : Type) : Type := St -> result A * St.

Definition ret {A : Type} (a : A) : Eff A := fun st => (Ok a, st).

Definition bind {A B : Type} (e : Eff A) (k : A -> Eff B) : Eff B :=
  fun st =>
    match e st with
    | (Ok a, st') => k a st'
    | (Throw msg, st') => (Throw msg, st')
    end.

Definition lift {A : Type} (r : result A) : Eff A := fun st => (r, st).

Definition do_fetch (rq : FetchRequest) : Eff UpstreamRes :=
  fun st =>
    let (r, w) := fetch rt rq (world st) in
    (r, {| world := w; calls := calls st ++ [(rq, r)] |}).

Notation "'let!' x ':=' e 'in' k" := (bind e (fun x => k))
  (at level 10, x name, e at level 100, k at level 200).

(** [(raw.trim() ? raw.slice(0, 500) : '')] *)
Definition raw_excerpt (raw : jstr) : jstr :=
  if negb (is_empty (trim raw)) then slice_to 500 raw else [].

(** The [upstreamMessage] of the fallback loop (lines 156-157). *)
Definition loopMessage (json : value) (raw : jstr) : value :=
  or_else (get (get (Some json) (lit "error")) (lit "message"))
    (or_else (get (Some json) (lit "message")) (VStr (raw_excerpt raw))).

(** [looksLikeModelNotFound]. The three tests convert the same value
    to a string; the conversion is written once, before them, which is
    where the first test performs it. *)
Definition looksLikeModelNotFound (status : Z) (upstreamMessage : value)
  : result bool :=
  if negb (status =? 404)%Z then Ok false
  else
    let? s := ToString (or_else (Some upstreamMessage) (VStr [])) in
    Ok ((test_i re_model s || test_i re_model_cjk s) && test_not_found s).

(** The [upstreamMessage] of a failure response (lines 166-170 and
    233-237). *)
Definition upstreamMessage (json : value) (raw : jstr) : value :=
  or_else (get (get (Some json) (lit "error")) (lit "message"))
    (or_else (get (Some json) (lit "message"))
       (or_else (Some (VStr (raw_excerpt raw))) (VStr (lit "Upstream error")))).

(** The failure response of both families (lines 172-178 and 239-245). *)
Definition failure (status : Z) (contentType : jstr) (json : value)
    (raw : jstr) (model : jstr) : Response :=
  {| res_status := status;
     res_json :=
       UpstreamFailure (upstreamMessage json raw) status contentType
         (nullish_else json (VStr (slice_to 2000 raw)))
         (model :: getModelFallbacks model) |}.

Definition initial_last : Last :=
  {| lastStatus := 500; lastRaw := []; lastContentType := []; lastJson := VNull |}.

(** The values of the loop variables after the response [up]
    (lines 139-148). *)
Definition last_of (up : UpstreamRes) : Last :=
  {| lastStatus := up_status up;
     lastRaw := up_text up;
     lastContentType := String_or_empty (up_content_type up);
     lastJson := parse_or_null (up_text up) |}.

(** The for-of loop over [tryModels]. *)
Fixpoint tryLoop (url : jstr) (headers : list (jstr * jstr))
    (systemInstruction userPrompt : jstr) (tryModels : list jstr) (last : Last)
  : Eff LoopExit :=
  match tryModels with
  | [] => ret (Fell last)
  | m :: rest =>
      let! upstreamRes :=
        do_fetch (chatRequest url headers systemInstruction userPrompt m) in
      let last := last_of upstreamRes in
      if ok upstreamRes then
        let text := chatText (lastJson last) in
        ret (Returned {| res_status := 200; res_json := Generated text m |})
      else
        let! looks :=
          lift (looksLikeModelNotFound (up_status upstreamRes)
                  (loopMessage (lastJson last) (lastRaw last))) in
        if negb looks then ret (Fell last)
        else tryLoop url headers systemInstruction userPrompt rest last
  end.

(** The text of a successful Gemini response (lines 249-251). *)
Definition geminiText (json : value) : result value :=
  match geminiParts json with
  | Some (VArr parts) =>
      let? t := join_with ToString [] (map partText parts) in
      Ok (VStr t)
  | _ => Ok (VStr [])
  end.

(** The body of the [try] block. *)
Definition forward (model systemInstruction userPrompt : jstr)
    (enableThinking : bool) (proxyEndpoint rawToken : jstr) : Eff Response :=
  let! endpoint :=
    lift (getUpstreamBase
            (if negb (is_empty proxyEndpoint) then proxyEndpoint
             else default_endpoint)) in
  let isOpenAI := startsWith model (lit "gpt") || startsWith model (lit "o1") in
  if isOpenAI then
    let baseUrl := openaiBaseUrl endpoint in
    let! urlObj := lift (new_URL rt (baseUrl ++ lit "/chat/completions")) in
    let headers := openaiHeaders rawToken in
    let tryModels := model :: getModelFallbacks model in
    let! exit :=
      tryLoop (href urlObj) headers systemInstruction userPrompt tryModels
        initial_last in
    match exit with
    | Returned r => ret r
    | Fell last =>
        ret (failure (lastStatus last) (lastContentType last) (lastJson last)
               (lastRaw last) model)
    end
  else
    let baseUrl := geminiBaseUrl endpoint in
    let! urlObj :=
      lift (new_URL rt
              (baseUrl ++ lit "/models/" ++ model ++ lit ":generateContent")) in
    let! upstreamRes :=
      do_fetch (geminiRequest urlObj model systemInstruction userPrompt
                  enableThinking rawToken) in
    let contentType := String_or_empty (up_content_type upstreamRes) in
    let rawText := up_text upstreamRes in
    let json := parse_or_null rawText in
    if negb (ok upstreamRes) then
      ret (failure (up_status upstreamRes) contentType json rawText model)
    else
      let! text := lift (geminiText json) in
      ret {| res_status := 200; res_json := Generated text model |}.

(** [req.body || {}] *)
Definition empty_body : Body :=
  {| model := None; systemInstruction := None; userPrompt := None;
     enableThinking := None; proxyEndpoint := None |}.

(** The [rawToken] of the handler. *)
Definition rawToken_of (auth : option jstr) : jstr :=
  let token := match auth with Some s => s | None => [] end in
  if startsWith token (lit "Bearer ") then trim (slice_from 7 token)
  else trim token.

(** [String(body.proxyEndpoint || 'https://api.vectorengine.ai').trim()] *)
Definition proxyEndpoint_of (b : Body) : jstr :=
  trim (match proxyEndpoint b with
        | Some s => if negb (is_empty s) then s else default_endpoint
        | None => default_endpoint
        end).

Definition handler (req : Request) : St -> Response * St :=
  fun st =>
    if negb (jstr_eqb (method req) (lit "POST")) then
      ({| res_status := 405; res_json := ErrorOnly (lit "Method not allowed") |}, st)
    else
      let rawToken := rawToken_of (authorization req) in
      let b := match body req with Some b => b | None => empty_body end in
      let model := normalizeModel (model b) in
      let systemInstruction := String_or_empty (systemInstruction b) in
      let userPrompt := String_or_empty (userPrompt b) in
      let enableThinking :=
        match enableThinking b with Some v => v | None => false end in
      let proxyEndpoint := proxyEndpoint_of b in
      if is_empty model || is_empty systemInstruction || is_empty userPrompt then
        ({| res_status := 400;
            res_json := ErrorOnly (lit "Missing required fields") |}, st)
      else if is_empty rawToken then
        ({| res_status := 401;
            res_json := ErrorOnly (lit "Missing Proxy Token") |}, st)
      else
        match forward model systemInstruction userPrompt enableThinking
                proxyEndpoint rawToken st with
        | (Ok r, st') => (r, st')
        | (Throw msg, st') =>
            ({| res_status := 500; res_json := ErrorOnly msg |}, st')
        end.

End WithRuntime.

Arguments handler rt req st : clear implicits.
Arguments forward rt model systemInstruction userPrompt enableThinking
  proxyEndpoint rawToken : clear implicits.
Arguments tryLoop rt url headers systemInstruction userPrompt tryModels last
  : clear implicits.
Arguments looksLikeModelNotFound rt status upstreamMessage : clear implicits.
Arguments geminiText rt json : clear implicits.
Arguments ToString rt v : clear implicits.
Arguments getUpstreamBase rt endpoint : clear implicits.
Arguments parse_or_null rt raw : clear implicits.
Arguments last_of rt up : clear implicits.
Arguments do_fetch rt rq : clear implicits.

(* ================================================================== *)
(** * Names for what the handler computes from a request *)
(* ================================================================== *)

Definition body_of (req : Request) : Body :=
  match body req with
  | Some b => b
  | None => empty_body
  end.

(** The [model] of the handler: the normalized model of the request. *)
Definition model_of (req : Request) : jstr := normalizeModel (model (body_of req)).

Definition systemInstruction_of (req : Request) : jstr :=
  String_or_empty (systemInstruction (body_of req)).

Definition userPrompt_of (req : Request) : jstr :=
  String_or_empty (userPrompt (body_of req)).

(** The test of line 81. *)
Definition missing_required (req : Request) : bool :=
  is_empty (model_of req) || is_empty (systemInstruction_of req)
  || is_empty (userPrompt_of req).

(** The argument that the handler passes to [getUpstreamBase]. *)
Definition endpoint_of (req : Request) : jstr :=
  let proxyEndpoint := proxyEndpoint_of (body_of req) in
  if negb (is_empty proxyEndpoint) then proxyEndpoint else default_endpoint.

(** [looksLikeModelNotFound] for the response [up] (lines 156-161). *)
Definition looks_of (rt : Runtime) (up : UpstreamRes) : result bool :=
  looksLikeModelNotFound rt (up_status up)
    (loopMessage (parse_or_null rt (up_text up)) (up_text up)).

(** The request goes to the OpenAI-compatible family. *)
Definition isOpenAI (m : jstr) : bool :=
  startsWith m (lit "gpt") || startsWith m (lit "o1").

Definition method_not_allowed : Response :=
  {| res_status := 405; res_json := ErrorOnly (lit "Method not allowed") |}.

Definition missing_required_fields : Response :=
  {| res_status := 400; res_json := ErrorOnly (lit "Missing required fields") |}.

Definition missing_proxy_token : Response :=
  {| res_status := 401; res_json := ErrorOnly (lit "Missing Proxy Token") |}.

Definition host_not_allowed : Response :=
  {| res_status := 500; res_json := ErrorOnly (lit "proxyEndpoint host not allowed") |}.

(** The [catch] of the handler. *)
Definition caught {S : Type} (r : result Response * S) : Response * S :=
  match r with
  | (Ok res, st) => (res, st)
  | (Throw msg, st) => ({| res_status := 500; res_json := ErrorOnly msg |}, st)
  end.

(** The models of the chat-completions calls of a trace, in order. *)
Definition attempted_models (trace : list (FetchRequest * result UpstreamRes))
  : list (option jstr) :=
  map (fun c => attempted_model (fst c)) trace.

(* ================================================================== *)
(** * The dotted-numeric model names *)
(* ================================================================== *)

(** One or more digits. *)
Inductive Digits : jstr -> Prop :=
| Digits_one (c : char16) : is_digit c = true -> Digits [c]
| Digits_more (c : char16) (s : jstr) :
    is_digit c = true -> Digits s -> Digits (c :: s).

(** Digit groups separated by single dots, as in 4, 4.1 or 4.1.2. *)
Inductive DottedNumeric : jstr -> Prop :=
| Dotted_last (d : jstr) : Digits d -> DottedNumeric d
| Dotted_group (d s : jstr) :
    Digits d -> DottedNumeric s -> DottedNumeric (d ++ 46%N :: s).

(** A string on which [trim] has nothing to remove. *)
Definition is_trimmed (s : jstr) : Prop :=
  dropWhile isWhiteSpace s = s /\ dropWhile isWhiteSpace (rev s) = rev s.

(* ================================================================== *)
(** * Names used to state what a run of the handler does *)
(* ================================================================== *)

(** The five model names that the family branches of
    [getModelFallbacks] push. *)
Definition pushed_fallbacks : list jstr :=
  [ lit "gpt-4o-mini"; lit "gpt-4o"; lit "gpt-4.1-mini";
    lit "gemini-1.5-flash"; lit "gemini-1.5-pro"; lit "gemini-2.0-flash-exp" ].

(** The [tryModels] of the handler (lines 115, 177 and 244). *)
Definition tryModels_of (req : Request) : list jstr :=
  model_of req :: getModelFallbacks (model_of req).

(** A status in the range that [Response.ok] accepts. *)
Definition is_2xx (status : Z) : bool := ((200 <=? status) && (status <=? 299))%Z.

(** The failure response that the handler builds from the upstream
    response [up] (lines 166-178 and 232-246). *)
Definition failure_of (rt : Runtime) (up : UpstreamRes) (model : jstr) : Response :=
  failure (up_status up) (String_or_empty (up_content_type up))
    (parse_or_null rt (up_text up)) (up_text up) model.

(** The answer to an exception that reaches the [catch] (lines 254-257). *)
Definition thrown (msg : jstr) : Response :=
  {| res_status := 500; res_json := ErrorOnly msg |}.

(** What the handler answers after the last call of the fallback loop,
    made for the candidate [m] with outcome [out]; [exhausted] says that
    [m] was the last candidate. *)
Definition loop_outcome (rt : Runtime) (model m : jstr) (exhausted : Prop)
    (out : result UpstreamRes) (answer : Response) : Prop :=
  match out with
  | Throw msg => answer = thrown msg
  | Ok up =>
      if ok up then
        answer = {| res_status := 200;
                    res_json := Generated (chatText (parse_or_null rt (up_text up))) m |}
      else
        match looks_of rt up with
        | Throw msg => answer = thrown msg
        | Ok false => answer = failure_of rt up model
        | Ok true => answer = failure_of rt up model /\ exhausted
        end
  end.

(** What the handler answers after the call of the Gemini-compatible
    family with outcome [out]. *)
Definition gemini_outcome (rt : Runtime) (model : jstr)
    (out : result UpstreamRes) (answer : Response) : Prop :=
  match out with
  | Throw msg => answer = thrown msg
  | Ok up =>
      if negb (ok up) then answer = failure_of rt up model
      else
        match geminiText rt (parse_or_null rt (up_text up)) with
        | Ok text => answer = {| res_status := 200; res_json := Generated text model |}
        | Throw msg => answer = thrown msg
        end
  end.

(** The [thinkingConfig] of the body of a call, when it has one. *)
Definition thinkingConfig_of (rq : FetchRequest) : option (bool * Z) :=
  match fetch_body rq with
  | ChatCompletions _ _ _ _ _ => None
  | GenerateContent _ _ _ _ config => config
  end.

(** The value of the header [name] of a call: the entry written last,
    as for a property of the [headers] object. *)
Fixpoint header (name : jstr) (headers : list (jstr * jstr)) : option jstr :=
  match headers with
  | [] => None
  | (k, v) :: headers' =>
      match header name headers' with
      | Some v' => Some v'
      | None => if jstr_eqb k name then Some v else None
      end
  end.

(* ================================================================== *)
(** * A test runtime for the closed examples *)
(* ================================================================== *)

Module Stub.

(** The upstream answers with a prepared list of outcomes, one per
    call; once the list is used up the call fails. *)
Definition stub_fetch (rq : FetchRequest) (w : list (result UpstreamRes))
  : result UpstreamRes * list (result UpstreamRes) :=
  match w with
  | [] => (Throw (lit "fetch failed"), [])
  | r :: w' => (r, w')
  end.

Definition url (h proto host prt path : string) : URL :=
  {| href := lit h; protocol := lit proto; hostname := lit host;
     port := lit prt; pathname := lit path |}.

(** The URLs that the examples construct, with the fields the URL
    parser gives them. *)
Definition known_urls : list (jstr * URL) :=
  [ (lit "https://api.vectorengine.ai",
     url "https://api.vectorengine.ai/" "https:" "api.vectorengine.ai" "" "/");
    (lit "https://api.vectorengine.ai/v1/chat/completions",
     url "https://api.vectorengine.ai/v1/chat/completions" "https:"
         "api.vectorengine.ai" "" "/v1/chat/completions");
    (lit "https://api.vectorengine.ai/v1beta/models/gemini-1.5-pro:generateContent",
     url "https://api.vectorengine.ai/v1beta/models/gemini-1.5-pro:generateContent"
         "https:" "api.vectorengine.ai" ""
         "/v1beta/models/gemini-1.5-pro:generateContent");
    (lit "https://evil.example.com",
     url "https://evil.example.com/" "https:" "evil.example.com" "" "/");
    (lit "http://api.vectorengine.ai:8080/x",
     url "http://api.vectorengine.ai:8080/x" "http:" "api.vectorengine.ai"
         "8080" "/x") ].

Fixpoint stub_new_URL_in (table : list (jstr * URL)) (s : jstr) : result URL :=
  match table with
  | [] => Throw (lit "Invalid URL")
  | (k, u) :: table' => if jstr_eqb k s then Ok u else stub_new_URL_in table' s
  end.

Definition stub_new_URL (s : jstr) : result URL := stub_new_URL_in known_urls s.

(** JSON text of a value without numbers or escapes. *)
Definition dq : jstr := [34%N].

Fixpoint render (v : value) : jstr :=
  match v with
  | VNull => lit "null"
  | VBool true => lit "true"
  | VBool false => lit "false"
  | VNum _ => lit "0"
  | VStr s => dq ++ s ++ dq
  | VArr items =>
      lit "[" ++
      (fix go (l : list value) : jstr :=
         match l with
         | [] => []
         | [x] => render x
         | x :: tl => render x ++ lit "," ++ go tl
         end) items ++ lit "]"
  | VObj props =>
      lit "{" ++
      (fix go (l : list (jstr * value)) : jstr :=
         match l with
         | [] => []
         | [(k, x)] => dq ++ k ++ dq ++ lit ":" ++ render x
         | (k, x) :: tl => dq ++ k ++ dq ++ lit ":" ++ render x ++ lit "," ++ go tl
         end) props ++ lit "}"
  end.

Definition obj1 (k : string) (v : value) : value := VObj [(lit k, v)].

(** [{choices:[{message:{content:"hello"}}]}] *)
Definition chat_hello : value :=
  obj1 "choices" (VArr [obj1 "message" (obj1 "content" (VStr (lit "hello")))]).

(** [{candidates:[{content:{parts:[{text:"a"},{text:"b"}]}}]}] *)
Definition gemini_ab : value :=
  obj1 "candidates"
    (VArr [obj1 "content"
             (obj1 "parts" (VArr [obj1 "text" (VStr (lit "a"));
                                  obj1 "text" (VStr (lit "b"))]))]).

(** [{error:{message:"model not found"}}] *)
Definition err_model_not_found : value :=
  obj1 "error" (obj1 "message" (VStr (lit "model not found"))).

(** [{error:{message:"overloaded"}}] *)
Definition err_overloaded : value :=
  obj1 "error" (obj1 "message" (VStr (lit "overloaded"))).

(** [{error:{message:{toString:null}}}] *)
Definition err_no_primitive : value :=
  obj1 "error" (obj1 "message" (obj1 "toString" VNull)).

Definition known_values : list value :=
  [ chat_hello; gemini_ab; err_model_not_found; err_overloaded; err_no_primitive;
    VNull ].

(** The parser on the JSON texts of the examples; any other text is
    taken as unparseable. *)
Fixpoint stub_JSON_parse_in (known : list value) (raw : jstr) : result value :=
  match known with
  | [] => Throw (lit "Unexpected token")
  | v :: known' =>
      if jstr_eqb (render v) raw then Ok v else stub_JSON_parse_in known' raw
  end.

Definition stub_JSON_parse (raw : jstr) : result value :=
  stub_JSON_parse_in known_values raw.

(** No example converts a number to a string. *)
Definition runtime : Runtime :=
  {| World := list (result UpstreamRes);
     fetch := stub_fetch;
     new_URL := stub_new_URL;
     JSON_parse := stub_JSON_parse;
     Number_toString := fun _ => lit "0";
     not_primitive_message := lit "Cannot convert object to primitive value" |}.

Definition start (answers : list (result UpstreamRes)) : St runtime :=
  {| world := answers : World runtime; calls := [] |}.

Definition answer (status : Z) (v : value) : result UpstreamRes :=
  Ok {| up_status := status;
        up_content_type := Some (lit "application/json");
        up_text := render v |}.

Definition post (auth : option string) (m s u : string) (endpoint : option string)
  : Request :=
  {| method := lit "POST";
     authorization := option_map lit auth;
     body := Some {| model := Some (lit m);
                     systemInstruction := Some (lit s);
                     userPrompt := Some (lit u);
                     enableThinking := None;
                     proxyEndpoint := option_map lit endpoint |} |}.

End Stub.

(** The test runtime with one more URL, for a request that asks a
    thinking model to think. *)
Module StubThinking.

Definition thinking_url : URL :=
  Stub.url
    "https://api.vectorengine.ai/v1beta/models/gemini-2.0-flash-thinking-exp:generateContent"
    "https:" "api.vectorengine.ai" ""
    "/v1beta/models/gemini-2.0-flash-thinking-exp:generateContent".

Definition runtime : Runtime :=
  {| World := list (result UpstreamRes);
     fetch := Stub.stub_fetch;
     new_URL :=
       Stub.stub_new_URL_in
         ((lit "https://api.vectorengine.ai/v1beta/models/gemini-2.0-flash-thinking-exp:generateContent",
           thinking_url) :: Stub.known_urls);
     JSON_parse := Stub.stub_JSON_parse;
     Number_toString := fun _ => lit "0";
     not_primitive_message := lit "Cannot convert object to primitive value" |}.

Definition start (answers : list (result UpstreamRes)) : St runtime :=
  {| world := answers : World runtime; calls := [] |}.

Definition request : Request :=
  {| method := lit "POST";
     authorization := Some (lit "Bearer k");
     body := Some {| model := Some (lit "gemini-2.0-flash-thinking-exp");
                     systemInstruction := Some (lit "be brief");
                     userPrompt := Some (lit "hi");
                     enableThinking := Some true;
                     proxyEndpoint := None |} |}.

End StubThinking.

(* ================================================================== *)
(** * Facts about strings *)
(* ================================================================== *)

Lemma jstr_eqb_eq (a b : jstr) : jstr_eqb a b = true <-> a = b.
Proof.
  revert b; induction a as [|x a IH]; intros [|y b]; simpl; split;
    try discriminate; try reflexivity.
  - intros H. apply andb_true_iff in H as [Hx Hab].
    apply N.eqb_eq in Hx. apply IH in Hab. congruence.
  - intros H. injection H as -> ->.
    rewrite N.eqb_refl. simpl. now apply IH.
Qed.

Lemma jstr_eqb_refl (a : jstr) : jstr_eqb a a = true.
Proof. now apply jstr_eqb_eq. Qed.

Lemma jstr_eqb_neq (a b : jstr) : jstr_eqb a b = false <-> a <> b.
Proof.
  split.
  - intros H E. apply jstr_eqb_eq in E. congruence.
  - intros H. destruct (jstr_eqb a b) eqn:E; [|reflexivity].
    apply jstr_eqb_eq in E. contradiction.
Qed.

Lemma startsWith_app (p r : jstr) : startsWith (p ++ r) p = true.
Proof.
  induction p as [|a p IH]; simpl; [reflexivity|].
  now rewrite N.eqb_refl.
Qed.

Lemma startsWith_cons_neq (c a : char16) (s p : jstr) :
  a <> c -> startsWith (c :: s) (a :: p) = false.
Proof.
  intros H. simpl. apply N.eqb_neq in H. now rewrite H.
Qed.

Lemma startsWith_split (s p : jstr) :
  startsWith s p = true -> s = p ++ skipn (List.length p) s.
Proof.
  revert s; induction p as [|a p IH]; intros s H; simpl in *; [reflexivity|].
  destruct s as [|b s]; [discriminate|].
  apply andb_true_iff in H as [Hab Hs]. apply N.eqb_eq in Hab. subst b.
  simpl. f_equal. now apply IH.
Qed.

Lemma dropWhile_length (f : char16 -> bool) (s : jstr) :
  List.length (dropWhile f s) <= List.length s.
Proof.
  induction s as [|c s IH]; simpl; [lia|].
  destruct (f c); simpl; lia.
Qed.

Lemma dropWhile_fixed_cons (f : char16 -> bool) (c : char16) (s : jstr) :
  dropWhile f (c :: s) = c :: s <-> f c = false.
Proof.
  simpl. destruct (f c) eqn:E; split; intros H; try reflexivity; try discriminate.
  pose proof (dropWhile_length f s) as L. rewrite H in L. simpl in L. lia.
Qed.

Lemma dropWhile_idem (f : char16 -> bool) (s : jstr) :
  dropWhile f (dropWhile f s) = dropWhile f s.
Proof.
  induction s as [|c s IH]; simpl; [reflexivity|].
  destruct (f c) eqn:E; [exact IH|]. simpl. now rewrite E.
Qed.

(** A string that [dropWhile] leaves alone still is left alone when
    something is appended to it, provided it is not empty. *)
Lemma dropWhile_fixed_app (f : char16 -> bool) (a c : jstr) :
  a <> [] -> dropWhile f a = a -> dropWhile f (a ++ c) = a ++ c.
Proof.
  destruct a as [|x a]; [congruence|]. intros _ H.
  apply dropWhile_fixed_cons in H. simpl. now rewrite H.
Qed.

(** Dropping from the front of [l ++ r] stops inside [l], or at the
    front of [r] when [r] does not start with a dropped unit. *)
Lemma dropWhile_app_fixed (f : char16 -> bool) (l r : jstr) :
  dropWhile f r = r -> dropWhile f (l ++ r) = dropWhile f l ++ r.
Proof.
  intros H. induction l as [|c l IH]; simpl; [exact H|].
  destruct (f c); [exact IH | reflexivity].
Qed.

Lemma trim_is_trimmed (s : jstr) : is_trimmed (trim s).
Proof.
  unfold is_trimmed, trim, trimEnd, trimStart.
  set (t := dropWhile isWhiteSpace s).
  assert (Ht : dropWhile isWhiteSpace t = t) by apply dropWhile_idem.
  split.
  - destruct t as [|c t]; [reflexivity|].
    apply dropWhile_fixed_cons in Ht.
    change (rev (c :: t)) with (rev t ++ [c]).
    rewrite dropWhile_app_fixed by (simpl; now rewrite Ht).
    rewrite rev_app_distr. simpl. now rewrite Ht.
  - rewrite rev_involutive. apply dropWhile_idem.
Qed.

Lemma trim_of_trimmed (s : jstr) : is_trimmed s -> trim s = s.
Proof.
  intros [H1 H2]. unfold trim, trimEnd, trimStart.
  rewrite H1, H2. apply rev_involutive.
Qed.

Lemma trim_idempotent (s : jstr) : trim (trim s) = trim s.
Proof. apply trim_of_trimmed, trim_is_trimmed. Qed.

(** Putting a prefix that starts with a visible unit in front of a
    trimmed string gives a trimmed string. *)
Lemma is_trimmed_prefixed (p0 : char16) (p m : jstr) :
  isWhiteSpace p0 = false ->
  dropWhile isWhiteSpace (rev (p0 :: p)) = rev (p0 :: p) ->
  is_trimmed m -> is_trimmed ((p0 :: p) ++ m).
Proof.
  intros Hp0 Hp [_ Hm]. split.
  - simpl. now rewrite Hp0.
  - rewrite rev_app_distr. destruct m as [|c m].
    + exact Hp.
    + apply dropWhile_fixed_app; [|exact Hm].
      simpl. intros E. now apply app_eq_nil in E as [_ E].
Qed.

Lemma digit_not_space (c : char16) : is_digit c = true -> isWhiteSpace c = false.
Proof.
  unfold is_digit, isWhiteSpace. intros H.
  apply andb_true_iff in H as [H1 H2].
  apply N.leb_le in H1. apply N.leb_le in H2.
  repeat (apply orb_false_iff; split); try (apply N.eqb_neq; lia).
  - apply andb_false_iff. right. apply N.leb_gt. lia.
  - apply andb_false_iff. left. apply N.leb_gt. lia.
Qed.

(* ================================================================== *)
(** * Model-name normalization *)
(* ================================================================== *)

Lemma re_dotted_digits (d rest : jstr) (need : bool) :
  Digits d -> re_dotted need (d ++ rest) = re_dotted false rest.
Proof.
  intros H; revert need. induction H as [c Hc|c s Hc Hs IH]; intros need; simpl.
  - now rewrite Hc.
  - rewrite Hc. apply IH.
Qed.

Lemma DottedNumeric_re_dotted (s : jstr) (need : bool) :
  DottedNumeric s -> re_dotted need s = true.
Proof.
  intros H; revert need. induction H as [d Hd|d s Hd Hs IH]; intros need.
  - rewrite <- (app_nil_r d). now rewrite re_dotted_digits.
  - rewrite re_dotted_digits by assumption. simpl. apply IH.
Qed.

(** The regular expression of the source accepts the dotted-numeric
    strings. *)
Lemma DottedNumeric_test (s : jstr) : DottedNumeric s -> test_dotted_numeric s = true.
Proof. apply DottedNumeric_re_dotted. Qed.

Lemma re_dotted_first (s : jstr) :
  re_dotted true s = true -> exists c s', s = c :: s' /\ is_digit c = true.
Proof.
  destruct s as [|c s']; simpl; [discriminate|].
  destruct (is_digit c) eqn:E; [eauto|].
  rewrite andb_false_r. discriminate.
Qed.

Lemma re_dotted_last (s : jstr) (need : bool) :
  re_dotted need s = true -> s <> [] -> is_digit (last s 0%N) = true.
Proof.
  revert need; induction s as [|c s IH]; intros need H Hne; [congruence|].
  destruct s as [|c' s].
  - simpl in *. destruct (is_digit c); [reflexivity|].
    destruct ((c =? 46)%N && negb need); discriminate.
  - change (last (c :: c' :: s) 0%N) with (last (c' :: s) 0%N).
    simpl in H. destruct (is_digit c).
    + apply (IH false); [exact H | discriminate].
    + destruct ((c =? 46)%N && negb need); [|discriminate].
      apply (IH true); [exact H | discriminate].
Qed.

Lemma dotted_is_trimmed (s : jstr) : test_dotted_numeric s = true -> is_trimmed s.
Proof.
  intros H. unfold test_dotted_numeric in H.
  destruct (re_dotted_first _ H) as (c & s' & -> & Hc).
  split.
  - apply dropWhile_fixed_cons. now apply digit_not_space.
  - assert (Hne : c :: s' <> []) by discriminate.
    pose proof (re_dotted_last _ H Hne) as Hl.
    rewrite (app_removelast_last 0%N Hne) at 1 2.
    rewrite rev_app_distr. simpl rev at 1 3. simpl app.
    apply dropWhile_fixed_cons. now apply digit_not_space.
Qed.

Lemma Digits_snoc (d : jstr) (c : char16) :
  Digits d -> is_digit c = true -> Digits (d ++ [c]).
Proof.
  intros H Hc. induction H as [x Hx|x s Hx Hs IH]; simpl.
  - apply Digits_more; [exact Hx | now apply Digits_one].
  - now apply Digits_more.
Qed.

Lemma re_dotted_complete (s : jstr) :
  (re_dotted true s = true -> DottedNumeric s) /\
  (re_dotted false s = true -> forall d, Digits d -> DottedNumeric (d ++ s)).
Proof.
  induction s as [|c s [IHt IHf]]; split; simpl.
  - discriminate.
  - intros _ d Hd. rewrite app_nil_r. now apply Dotted_last.
  - destruct (is_digit c) eqn:Hc.
    + intros H. apply (IHf H [c]). now apply Digits_one.
    + rewrite andb_false_r. discriminate.
  - destruct (is_digit c) eqn:Hc.
    + intros H d Hd.
      change (d ++ c :: s) with (d ++ [c] ++ s). rewrite app_assoc.
      apply (IHf H). now apply Digits_snoc.
    + destruct (N.eqb_spec c 46) as [->|_]; simpl; [|discriminate].
      intros H d Hd. apply Dotted_group; [exact Hd | now apply IHt].
Qed.

(** The regular expression of the source accepts exactly the
    dotted-numeric strings. *)
Lemma test_dotted_numeric_iff (s : jstr) :
  test_dotted_numeric s = true <-> DottedNumeric s.
Proof.
  split; [apply re_dotted_complete | apply DottedNumeric_test].
Qed.

Lemma dropWhile_fixed_app_inv (f : char16 -> bool) (a b : jstr) :
  a <> [] -> dropWhile f (a ++ b) = a ++ b -> dropWhile f a = a.
Proof.
  destruct a as [|x a]; [congruence|]. intros _ H.
  apply dropWhile_fixed_cons. now apply (dropWhile_fixed_cons f x (a ++ b)).
Qed.

(** [gpt-] in front of a string with no trailing white space. *)
Lemma gpt_dash_trimmed (rest : jstr) :
  dropWhile isWhiteSpace (rev rest) = rev rest ->
  is_trimmed (lit "gpt-" ++ rest).
Proof.
  intros H. split.
  - reflexivity.
  - rewrite rev_app_distr. destruct rest as [|c rest]; [reflexivity|].
    apply dropWhile_fixed_app; [|exact H].
    simpl. intros E. now apply app_eq_nil in E as [_ E].
Qed.

(** A trimmed name that starts with [gpt-] is already normal. *)
Lemma normalizeModel_gpt_dash (rest : jstr) :
  is_trimmed (lit "gpt-" ++ rest) ->
  normalizeModel (Some (lit "gpt-" ++ rest)) = lit "gpt-" ++ rest.
Proof.
  intros H. unfold normalizeModel, String_or_empty.
  rewrite (trim_of_trimmed H). reflexivity.
Qed.

(** C6. For every string [m] of the dotted-numeric shape (one or more
    digits, then any number of groups made of a dot and one or more
    digits, such as 4.1 or 4.1.2), [normalizeModel] returns the string
    gpt- followed by [m]. *)
Theorem normalizeModel_dotted_numeric (m : jstr) :
  DottedNumeric m -> normalizeModel (Some m) = lit "gpt-" ++ m.
Proof.
  intros H. apply DottedNumeric_test in H.
  pose proof (dotted_is_trimmed _ H) as Ht.
  unfold normalizeModel, String_or_empty. rewrite (trim_of_trimmed Ht).
  destruct (re_dotted_first _ H) as (c & s' & -> & Hc).
  assert (Hg : forall p, startsWith (c :: s') (103%N :: p) = false).
  { intros p. apply startsWith_cons_neq. intros <-. discriminate. }
  assert (Ho : forall p, startsWith (c :: s') (111%N :: p) = false).
  { intros p. apply startsWith_cons_neq. intros <-. discriminate. }
  change (lit "gpt-") with (103%N :: lit "pt-").
  change (lit "o1") with (111%N :: lit "1").
  change (lit "gpt") with (103%N :: lit "pt").
  rewrite !Hg, Ho, H. reflexivity.
Qed.

Lemma normalizeModel_dotted_numeric_witness :
  DottedNumeric (lit "4.1.2") /\
  normalizeModel (Some (lit "4.1.2")) = lit "gpt-4.1.2".
Proof.
  assert (D : DottedNumeric (lit "4.1.2")).
  { apply (Dotted_group (d := lit "4") (s := lit "1.2")).
    - now apply Digits_one.
    - apply (Dotted_group (d := lit "1") (s := lit "2")).
      + now apply Digits_one.
      + apply Dotted_last. now apply Digits_one. }
  split; [exact D | exact (normalizeModel_dotted_numeric D)].
Defined.

(** C7, as the code has it. Normalization is idempotent: normalizing
    a normalized name returns it unchanged, for every input (a string,
    or an absent field); and a name that starts with gpt- or o1 and
    carries no white space at its ends is returned as it is. *)
Theorem normalizeModel_idempotent :
  (forall s : option jstr,
     normalizeModel (Some (normalizeModel s)) = normalizeModel s) /\
  (forall m : jstr,
     is_trimmed m ->
     startsWith m (lit "gpt-") = true \/ startsWith m (lit "o1") = true ->
     normalizeModel (Some m) = m).
Proof.
  assert (fixed : forall m, is_trimmed m ->
            startsWith m (lit "gpt-") || startsWith m (lit "o1") = true ->
            normalizeModel (Some m) = m).
  { intros m Ht H. unfold normalizeModel, String_or_empty.
    rewrite (trim_of_trimmed Ht), H. now destruct (is_empty m). }
  split.
  - intros s. unfold normalizeModel at 2 3.
    set (m := trim (String_or_empty s)).
    assert (Ht : is_trimmed m) by apply trim_is_trimmed.
    destruct (is_empty m) eqn:He.
    { destruct m; [reflexivity | discriminate]. }
    destruct (startsWith m (lit "gpt-") || startsWith m (lit "o1")) eqn:H1.
    { now apply fixed. }
    assert (pre : forall rest,
              dropWhile isWhiteSpace (rev rest) = rev rest ->
              normalizeModel (Some (lit "gpt-" ++ rest)) = lit "gpt-" ++ rest).
    { intros rest Hr. apply normalizeModel_gpt_dash. now apply gpt_dash_trimmed. }
    destruct (startsWith m (lit "gpt")) eqn:H2.
    { apply pre. unfold slice_from.
      apply startsWith_split in H2. destruct Ht as [_ Hrev].
      rewrite H2 in Hrev at 1 2. rewrite rev_app_distr in Hrev.
      change (List.length (lit "gpt")) with 3 in Hrev.
      destruct (skipn 3 m) as [|c rest]; [reflexivity|].
      apply dropWhile_fixed_app_inv in Hrev; [exact Hrev|].
      simpl. intros E. now apply app_eq_nil in E as [_ E]. }
    destruct (test_dotted_numeric m) eqn:H3.
    { apply pre. apply Ht. }
    destruct (test_4o m) eqn:H4.
    { apply pre. apply Ht. }
    unfold normalizeModel, String_or_empty.
    rewrite (trim_of_trimmed Ht), He, H1, H2, H3, H4. reflexivity.
  - intros m Ht H. apply fixed; [exact Ht|].
    apply orb_true_iff. exact H.
Qed.

(* ================================================================== *)
(** * The fallback chain *)
(* ================================================================== *)

Lemma existsb_jstr_eqb (x : jstr) (l : list jstr) :
  existsb (jstr_eqb x) l = true <-> In x l.
Proof.
  rewrite existsb_exists. split.
  - intros (y & Hy & E). apply jstr_eqb_eq in E. now subst.
  - intros H. exists x. split; [exact H | apply jstr_eqb_refl].
Qed.

(** A Set built from a list without repetitions lists it unchanged. *)
Lemma Array_from_Set_NoDup_from (l acc : list jstr) :
  NoDup (acc ++ l) -> fold_left Set_add l acc = acc ++ l.
Proof.
  revert acc; induction l as [|x l IH]; intros acc H; simpl.
  - now rewrite app_nil_r.
  - assert (Hx : existsb (jstr_eqb x) acc = false).
    { destruct (existsb (jstr_eqb x) acc) eqn:E; [|reflexivity].
      apply existsb_jstr_eqb in E. apply NoDup_remove_2 in H.
      exfalso. apply H. apply in_or_app. now left. }
    unfold Set_add at 2. rewrite Hx.
    change (x :: l) with ([x] ++ l) in *. rewrite app_assoc in *.
    now apply IH.
Qed.

Lemma Array_from_Set_NoDup (l : list jstr) : NoDup l -> Array_from_Set l = l.
Proof. intros H. now apply (Array_from_Set_NoDup_from l []). Qed.

Lemma NoDup_filter (f : jstr -> bool) (l : list jstr) :
  NoDup l -> NoDup (filter f l).
Proof.
  induction 1 as [|x l Hx Hl IH]; simpl; [constructor|].
  destruct (f x); [|exact IH].
  constructor; [|exact IH]. intros H. apply filter_In in H. tauto.
Qed.

(** The if-chain of the source picks the row that the table gives. *)
Lemma family_fallbacks_table (m : jstr) : family_fallbacks m = spec_candidates m.
Proof.
  unfold family_fallbacks, spec_candidates, spec_family_table, spec_first_match.
  repeat match goal with
         | |- context [if ?b then _ else _] => destruct b; [reflexivity|]
         end.
  reflexivity.
Qed.

(** Every row of the table lists distinct, non-empty names. *)
Lemma spec_rows_distinct (row : (jstr -> bool) * list jstr) :
  In row spec_family_table ->
  NoDup (snd row) /\ forall x, In x (snd row) -> is_empty x = false.
Proof.
  unfold spec_family_table. simpl.
  intros H. repeat destruct H as [<-|H]; try contradiction; simpl; split;
    try (intros x Hx; repeat destruct Hx as [<-|Hx]; try contradiction; reflexivity);
    repeat (constructor; [simpl; intuition discriminate|]); constructor.
Qed.

Lemma spec_first_match_row (rows : list ((jstr -> bool) * list jstr)) (m : jstr) :
  spec_first_match rows m = [] \/
  exists row, In row rows /\ fst row m = true /\ spec_first_match rows m = snd row.
Proof.
  induction rows as [|[test cands] rows IH]; simpl; [now left|].
  destruct (test m) eqn:E.
  - right. exists (test, cands). simpl. auto.
  - destruct IH as [IH|(row & Hin & Ht & Hr)]; [now left|].
    right. exists row. auto.
Qed.

Lemma spec_first_match_none (rows : list ((jstr -> bool) * list jstr)) (m : jstr) :
  (forall row, In row rows -> fst row m = false) -> spec_first_match rows m = [].
Proof.
  induction rows as [|[test cands] rows IH]; simpl; intros H; [reflexivity|].
  assert (Ht : test m = false) by (apply (H (test, cands)); now left).
  rewrite Ht. apply IH. intros row Hr. apply H. now right.
Qed.

Lemma spec_candidates_distinct (m : jstr) :
  NoDup (spec_candidates m) /\
  forall x, In x (spec_candidates m) -> is_empty x = false.
Proof.
  unfold spec_candidates.
  destruct (spec_first_match_row spec_family_table m) as [E|(row & Hin & _ & E)];
    rewrite E.
  - split; [constructor | contradiction].
  - now apply spec_rows_distinct.
Qed.

(** C4. For every model string, with [m] its trimmed form: the fallback
    chain is the candidate list of the first matching row of the family
    table, in the order of that row, with [m] itself left out; it does
    not contain [m]; it has no duplicates; and it is empty when no row
    matches. *)
Theorem getModelFallbacks_chain (model : jstr) :
  let m := trim model in
  let chain := getModelFallbacks model in
  chain = filter (fun x => negb (jstr_eqb x m)) (spec_candidates m) /\
  ~ In m chain /\
  NoDup chain /\
  ((forall row, In row spec_family_table -> fst row m = false) -> chain = []).
Proof.
  intros m chain.
  destruct (spec_candidates_distinct m) as [Hnd Hne].
  assert (E : chain = filter (fun x => negb (jstr_eqb x m)) (spec_candidates m)).
  { unfold chain, getModelFallbacks, String_or_empty. fold m.
    destruct (is_empty m) eqn:Hm.
    - destruct m; [reflexivity | discriminate].
    - rewrite family_fallbacks_table.
      rewrite Array_from_Set_NoDup by now apply NoDup_filter.
      apply filter_ext_in. intros x Hx. now rewrite (Hne x Hx). }
  split; [exact E|]. rewrite E. split; [|split].
  - intros H. apply filter_In in H as [_ H].
    rewrite jstr_eqb_refl in H. discriminate.
  - now apply NoDup_filter.
  - intros H. unfold spec_candidates.
    now rewrite (spec_first_match_none _ _ H).
Qed.

(* ================================================================== *)
(** * Request validation *)
(* ================================================================== *)

Section HandlerFacts.

Variable rt : Runtime.

(** The four ways through the handler. *)
Lemma handler_cases (req : Request) (st : St rt) :
  (jstr_eqb (method req) (lit "POST") = false /\
   handler rt req st = (method_not_allowed, st)) \/
  (method req = lit "POST" /\ missing_required req = true /\
   handler rt req st = (missing_required_fields, st)) \/
  (method req = lit "POST" /\ missing_required req = false /\
   is_empty (rawToken_of (authorization req)) = true /\
   handler rt req st = (missing_proxy_token, st)) \/
  (method req = lit "POST" /\ missing_required req = false /\
   is_empty (rawToken_of (authorization req)) = false /\
   handler rt req st =
     caught (forward rt (model_of req) (systemInstruction_of req)
               (userPrompt_of req)
               (match enableThinking (body_of req) with Some v => v | None => false end)
               (proxyEndpoint_of (body_of req))
               (rawToken_of (authorization req)) st)).
Proof.
  unfold handler.
  destruct (jstr_eqb (method req) (lit "POST")) eqn:Hm; simpl negb; cbv iota.
  2: { left. split; reflexivity. }
  apply jstr_eqb_eq in Hm. right.
  fold (body_of req). fold (model_of req). fold (systemInstruction_of req).
  fold (userPrompt_of req). fold (missing_required req).
  destruct (missing_required req) eqn:Hreq.
  { left. repeat split; assumption. }
  right.
  destruct (is_empty (rawToken_of (authorization req))) eqn:Htok.
  { left. repeat split; assumption. }
  right. repeat split; assumption.
Qed.

(** One pass through the loop body. *)
Lemma tryLoop_cons url headers sys usr (m : jstr) (rest : list jstr)
    (last : Last) (st : St rt) :
  let rq := chatRequest url headers sys usr m in
  let out := fetch rt rq (world st) in
  let st1 := {| world := snd out; calls := calls st ++ [(rq, fst out)] |} in
  tryLoop rt url headers sys usr (m :: rest) last st =
  match fst out with
  | Throw msg => (Throw msg, st1)
  | Ok up =>
      if ok up then
        (Ok (Returned {| res_status := 200;
                         res_json := Generated (chatText (parse_or_null rt (up_text up))) m |}),
         st1)
      else
        match looksLikeModelNotFound rt (up_status up)
                (loopMessage (parse_or_null rt (up_text up)) (up_text up)) with
        | Throw msg => (Throw msg, st1)
        | Ok looks =>
            if negb looks then (Ok (Fell (last_of rt up)), st1)
            else tryLoop rt url headers sys usr rest (last_of rt up) st1
        end
  end.
Proof.
  intros rq out st1. subst st1 out.
  cbn [tryLoop]. unfold bind at 1. unfold do_fetch. fold rq.
  destruct (fetch rt rq (world st)) as [[up|msg] w]; cbn [fst snd]; [|reflexivity].
  destruct (ok up); [reflexivity|].
  unfold bind, lift. cbn [lastJson lastRaw last_of].
  destruct (looksLikeModelNotFound _ _ _) as [looks|msg]; [|reflexivity].
  destruct looks; reflexivity.
Qed.

(** When the loop falls through, the loop variables are those of the
    last call made, and that call was answered with a failure; when it
    returns, the last call made was answered with a success. In both
    cases the state only grows by the calls of the loop. *)
Lemma tryLoop_exit url headers sys usr (ms : list jstr) :
  forall (last : Last) (st st' : St rt) (exit : LoopExit),
    tryLoop rt url headers sys usr ms last st = (Ok exit, st') ->
    match exit with
    | Returned r =>
        exists pre rq up m,
          calls st' = calls st ++ pre ++ [(rq, Ok up)] /\ ok up = true /\
          In m ms /\ attempted_model rq = Some m /\
          r = {| res_status := 200;
                 res_json := Generated (chatText (parse_or_null rt (up_text up))) m |}
    | Fell l =>
        (ms = [] /\ l = last /\ st' = st) \/
        exists pre rq up,
          calls st' = calls st ++ pre ++ [(rq, Ok up)] /\ ok up = false /\
          l = last_of rt up
    end.
Proof.
  induction ms as [|m rest IH]; intros last st st' exit H.
  - cbn in H. injection H as <- <-. now left.
  - rewrite tryLoop_cons in H. cbv zeta in H.
    match type of H with
    | context [fetch rt ?q (world st)] => set (rq := q) in *
    end.
    destruct (fetch rt rq (world st)) as [[up|msg] w] eqn:F; cbn [fst snd] in H;
      [|discriminate].
    destruct (ok up) eqn:Hok.
    { injection H as <- <-. cbn [calls].
      exists [], rq, up, m. repeat split; auto. now left. }
    destruct (looksLikeModelNotFound _ _ _) as [looks|msg]; [|discriminate].
    destruct looks; cbn [negb] in H.
    + apply IH in H. cbn [calls] in H. destruct exit as [r|l].
      * destruct H as (pre & rq' & up' & m' & Hc & Hok' & Hin & Ha & Hr).
        exists ((rq, Ok up) :: pre), rq', up', m'.
        rewrite Hc, <- app_assoc. repeat split; auto. now right.
      * right. destruct H as [(-> & -> & ->)|(pre & rq' & up' & Hc & Hok' & Hl)].
        -- exists [], rq, up. cbn [calls]. auto.
        -- exists ((rq, Ok up) :: pre), rq', up'.
           rewrite Hc, <- app_assoc. auto.
    + injection H as <- <-. right. exists [], rq, up. cbn [calls]. auto.
Qed.

(** The [try] block ends at once when the endpoint is refused. *)
Lemma forward_refused model sys usr thinking proxyEndpoint rawToken
    (st : St rt) (msg : jstr) :
  getUpstreamBase rt (if negb (is_empty proxyEndpoint) then proxyEndpoint
                      else default_endpoint) = Throw msg ->
  forward rt model sys usr thinking proxyEndpoint rawToken st = (Throw msg, st).
Proof.
  intros H. unfold forward, bind, lift. now rewrite H.
Qed.

(** The [try] block of an OpenAI-compatible request. *)
Lemma forward_openai model sys usr thinking proxyEndpoint rawToken
    (st : St rt) (endpoint : jstr) :
  getUpstreamBase rt (if negb (is_empty proxyEndpoint) then proxyEndpoint
                      else default_endpoint) = Ok endpoint ->
  isOpenAI model = true ->
  forward rt model sys usr thinking proxyEndpoint rawToken st =
  match new_URL rt (openaiBaseUrl endpoint ++ lit "/chat/completions") with
  | Throw msg => (Throw msg, st)
  | Ok urlObj =>
      match tryLoop rt (href urlObj) (openaiHeaders rawToken) sys usr
              (model :: getModelFallbacks model) initial_last st with
      | (Ok (Returned r), st') => (Ok r, st')
      | (Ok (Fell last), st') =>
          (Ok (failure (lastStatus last) (lastContentType last) (lastJson last)
                 (lastRaw last) model), st')
      | (Throw msg, st') => (Throw msg, st')
      end
  end.
Proof.
  intros He Ho. unfold isOpenAI in Ho. unfold forward.
  unfold bind at 1. unfold lift at 1. rewrite He, Ho.
  unfold bind at 1. unfold lift at 1.
  destruct (new_URL rt _) as [urlObj|msg]; [|reflexivity].
  unfold bind at 1.
  destruct (tryLoop _ _ _ _ _ _ _ _) as [[[r|l]|msg] st']; reflexivity.
Qed.

(** The [try] block of a Gemini-compatible request. *)
Lemma forward_gemini model sys usr thinking proxyEndpoint rawToken
    (st : St rt) (endpoint : jstr) :
  getUpstreamBase rt (if negb (is_empty proxyEndpoint) then proxyEndpoint
                      else default_endpoint) = Ok endpoint ->
  isOpenAI model = false ->
  forward rt model sys usr thinking proxyEndpoint rawToken st =
  match new_URL rt (geminiBaseUrl endpoint ++ lit "/models/" ++ model
                    ++ lit ":generateContent") with
  | Throw msg => (Throw msg, st)
  | Ok urlObj =>
      let rq := geminiRequest urlObj model sys usr thinking rawToken in
      let out := fetch rt rq (world st) in
      let st1 := {| world := snd out; calls := calls st ++ [(rq, fst out)] |} in
      match fst out with
      | Throw msg => (Throw msg, st1)
      | Ok up =>
          if negb (ok up) then
            (Ok (failure (up_status up) (String_or_empty (up_content_type up))
                   (parse_or_null rt (up_text up)) (up_text up) model), st1)
          else
            match geminiText rt (parse_or_null rt (up_text up)) with
            | Ok text =>
                (Ok {| res_status := 200; res_json := Generated text model |}, st1)
            | Throw msg => (Throw msg, st1)
            end
      end
  end.
Proof.
  intros He Ho. unfold isOpenAI in Ho. unfold forward.
  unfold bind at 1. unfold lift at 1. rewrite He, Ho.
  unfold bind at 1. unfold lift at 1.
  destruct (new_URL rt _) as [urlObj|msg]; [|reflexivity].
  cbv zeta. unfold bind at 1. unfold do_fetch.
  destruct (fetch rt _ (world st)) as [[up|msg] w]; cbn [fst snd]; [|reflexivity].
  destruct (ok up); cbn [negb]; [|reflexivity].
  unfold bind, lift. destruct (geminiText rt _); reflexivity.
Qed.

(** What the [try] block can answer: a generated text with status 200,
    or the failure response built from the last call made, which the
    upstream answered with a failure. *)
Lemma forward_answers model sys usr thinking proxyEndpoint rawToken
    (st st' : St rt) (r : Response) :
  forward rt model sys usr thinking proxyEndpoint rawToken st = (Ok r, st') ->
  (exists text used, r = {| res_status := 200; res_json := Generated text used |}) \/
  (exists pre rq up,
     calls st' = calls st ++ pre ++ [(rq, Ok up)] /\ ok up = false /\
     r = failure (up_status up) (String_or_empty (up_content_type up))
           (parse_or_null rt (up_text up)) (up_text up) model).
Proof.
  intros H.
  destruct (getUpstreamBase rt (if negb (is_empty proxyEndpoint) then proxyEndpoint
                                else default_endpoint)) as [endpoint|msg] eqn:He.
  2: { erewrite forward_refused in H by eassumption. discriminate. }
  destruct (isOpenAI model) eqn:Ho.
  - erewrite forward_openai in H by eassumption.
    destruct (new_URL rt _) as [urlObj|msg]; [|discriminate].
    destruct (tryLoop _ _ _ _ _ _ _ _) as [[[r'|l]|msg] st1] eqn:L;
      [| |discriminate]; injection H as <- <-; apply tryLoop_exit in L.
    + destruct L as (pre & rq & up & m & _ & _ & _ & _ & ->). left. eauto.
    + destruct L as [(Z & _)|(pre & rq & up & Hc & Hok & ->)]; [discriminate|].
      right. exists pre, rq, up. auto.
  - erewrite forward_gemini in H by eassumption.
    destruct (new_URL rt _) as [urlObj|msg]; [|discriminate].
    cbv zeta in H.
    destruct (fetch rt _ (world st)) as [[up|msg] w] eqn:F; cbn [fst snd] in H;
      [|discriminate].
    destruct (ok up) eqn:Hok; cbn [negb] in H.
    + destruct (geminiText rt _); [|discriminate].
      injection H as <- <-. left. eauto.
    + injection H as <- <-. right. cbn [calls].
      eexists [], _, up. split; [reflexivity|]. auto.
Qed.

(** C9. Validation is ordered. A request whose method is not POST gets
    405, whatever its fields and credential. A POST request with a
    required field missing gets the 400 missing-fields response, also
    when the credential is missing too. The 401 missing-credential
    response, and any answer with status 401, is given only to a POST
    request whose three required fields are all non-empty. *)
Theorem validation_is_ordered (req : Request) (st : St rt) :
  (method req <> lit "POST" ->
   handler rt req st = (method_not_allowed, st)) /\
  (method req = lit "POST" -> missing_required req = true ->
   handler rt req st = (missing_required_fields, st)) /\
  (res_status (fst (handler rt req st)) = 401%Z ->
   method req = lit "POST" /\
   model_of req <> [] /\ systemInstruction_of req <> [] /\ userPrompt_of req <> []).
Proof.
  assert (ne : forall s : jstr, is_empty s = false -> s <> []).
  { intros s Hs Z. rewrite Z in Hs. discriminate. }
  assert (fields : missing_required req = false ->
            model_of req <> [] /\ systemInstruction_of req <> [] /\
            userPrompt_of req <> []).
  { unfold missing_required. intros Hr.
    apply orb_false_iff in Hr as [Hr Hu]. apply orb_false_iff in Hr as [Hmo Hs].
    auto. }
  destruct (handler_cases req st)
    as [(Hm & E)|[(Hm & Hr & E)|[(Hm & Hr & Ht & E)|(Hm & Hr & Ht & E)]]];
    rewrite E.
  - apply jstr_eqb_neq in Hm. repeat split; try congruence; discriminate.
  - repeat split; try congruence; discriminate.
  - split; [congruence|]. split; [congruence|]. intros _. auto.
  - split; [congruence|]. split; [congruence|]. intros _. auto.
Qed.

(** The normalized model is empty exactly when the model of the
    request is blank. *)
Lemma normalizeModel_empty (input : option jstr) :
  normalizeModel input = [] <-> trim (String_or_empty input) = [].
Proof.
  unfold normalizeModel. set (m := trim (String_or_empty input)).
  destruct m as [|c m]; [tauto|]. cbn [is_empty].
  repeat match goal with
         | |- context [if ?b then _ else _] => destruct b
         end; split; discriminate.
Qed.

(** C1, as the code has it. For every POST request: when the model is
    empty after trimming, or the system instruction or the user prompt
    is the empty string (neither of these two is trimmed), the handler
    answers with the 400 missing-fields response and makes no upstream
    call; when the model is not blank and the other two are not empty,
    the request is not rejected for missing fields. *)
Theorem missing_fields_rejected (req : Request) (st : St rt) :
  method req = lit "POST" ->
  (trim (String_or_empty (model (body_of req))) = [] \/
   systemInstruction_of req = [] \/ userPrompt_of req = [] ->
   handler rt req st = (missing_required_fields, st)) /\
  (trim (String_or_empty (model (body_of req))) <> [] ->
   systemInstruction_of req <> [] -> userPrompt_of req <> [] ->
   fst (handler rt req st) <> missing_required_fields).
Proof.
  intros Hpost.
  assert (Hmiss : missing_required req = true <->
            trim (String_or_empty (model (body_of req))) = [] \/
            systemInstruction_of req = [] \/ userPrompt_of req = []).
  { unfold missing_required, model_of.
    rewrite !orb_true_iff, <- normalizeModel_empty.
    assert (e : forall s : jstr, is_empty s = true <-> s = [])
      by (intros [|c s]; simpl; split; congruence).
    rewrite !e. tauto. }
  destruct (handler_cases req st)
    as [(Hm & E)|[(Hm & Hr & E)|[(Hm & Hr & Ht & E)|(Hm & Hr & Ht & E)]]].
  - rewrite Hpost, jstr_eqb_refl in Hm. discriminate.
  - split; [now intros _|]. intros H1 H2 H3.
    apply Hmiss in Hr. tauto.
  - split.
    + intros H. apply Hmiss in H. congruence.
    + intros _ _ _. rewrite E. discriminate.
  - split.
    + intros H. apply Hmiss in H. congruence.
    + intros _ _ _. rewrite E. unfold caught.
      destruct (forward _ _ _ _ _ _ _ _) as [[r|msg] st'] eqn:F; cbn [fst];
        [|discriminate].
      apply forward_answers in F as [(t & u & ->)|(pre & rq & up & _ & _ & ->)];
        discriminate.
Qed.

(** C3, as the code has it. For every request whose endpoint parses as
    a URL with a host name outside the allow-list, the handler makes
    no upstream call; and when the request passes the method, field
    and credential checks, the answer is 500 with the host-not-allowed
    message. The endpoint https://evil.example.com, whose host name
    is evil.example.com, is refused in this way. *)
Theorem disallowed_host_rejected (req : Request) (st : St rt) (u : URL) :
  new_URL rt (endpoint_of req) = Ok u ->
  (allowedHosts_has (hostname u) = false \/
   (endpoint_of req = lit "https://evil.example.com" /\
    hostname u = lit "evil.example.com")) ->
  snd (handler rt req st) = st /\
  (method req = lit "POST" -> missing_required req = false ->
   rawToken_of (authorization req) <> [] ->
   handler rt req st = (host_not_allowed, st)).
Proof.
  intros Hu Hh.
  assert (Hhost : allowedHosts_has (hostname u) = false).
  { destruct Hh as [H|[_ ->]]; [exact H | reflexivity]. }
  assert (G : getUpstreamBase rt (endpoint_of req)
              = Throw (lit "proxyEndpoint host not allowed")).
  { unfold getUpstreamBase. now rewrite Hu, Hhost. }
  destruct (handler_cases req st)
    as [(Hm & E)|[(Hm & Hr & E)|[(Hm & Hr & Ht & E)|(Hm & Hr & Ht & E)]]];
    rewrite E.
  - split; [reflexivity|]. intros Hp. rewrite Hp, jstr_eqb_refl in Hm. discriminate.
  - split; [reflexivity|]. congruence.
  - split; [reflexivity|]. intros _ _ Hne.
    destruct (rawToken_of (authorization req)); [congruence | discriminate].
  - erewrite forward_refused by exact G.
    split; [reflexivity|]. reflexivity.
Qed.

(** The string left by [strip_trailing_slashes] is the argument
    without the slashes at its end. *)
Lemma dropWhile_split (f : char16 -> bool) (s : jstr) :
  exists pre, s = pre ++ dropWhile f s /\ forallb f pre = true.
Proof.
  induction s as [|c s (pre & E & Hp)]; simpl.
  - exists []. auto.
  - destruct (f c) eqn:Hc.
    + exists (c :: pre). simpl. rewrite Hc, Hp. split; [now f_equal | reflexivity].
    + exists []. auto.
Qed.

Lemma all_slashes (pre : jstr) :
  forallb (fun c => (c =? 47)%N) pre = true -> pre = repeat 47%N (List.length pre).
Proof.
  induction pre as [|c pre IH]; simpl; [reflexivity|].
  intros H. apply andb_true_iff in H as [Hc Hp].
  apply N.eqb_eq in Hc. subst c. f_equal. now apply IH.
Qed.

Lemma rev_repeat_unit (c : char16) (n : nat) : rev (repeat c n) = repeat c n.
Proof.
  induction n as [|n IH]; simpl; [reflexivity|].
  rewrite IH. clear IH. induction n as [|n IH]; simpl; [reflexivity|].
  now rewrite IH.
Qed.

Lemma strip_trailing_slashes_spec (s : jstr) :
  (exists n, s = strip_trailing_slashes s ++ repeat 47%N n) /\
  endsWith (strip_trailing_slashes s) (lit "/") = false.
Proof.
  unfold strip_trailing_slashes, endsWith. rewrite rev_involutive. split.
  - destruct (dropWhile_split (fun c => (c =? 47)%N) (rev s)) as (pre & E & Hp).
    exists (List.length pre).
    rewrite <- (rev_involutive s) at 1. rewrite E at 1.
    rewrite rev_app_distr. f_equal.
    rewrite (all_slashes _ Hp), rev_repeat_unit. now rewrite repeat_length.
  - change (rev (lit "/")) with [47%N].
    destruct (dropWhile (fun c => (c =? 47)%N) (rev s)) as [|c t] eqn:E;
      [reflexivity|].
    assert (Hc : (c =? 47)%N = false).
    { apply (dropWhile_fixed_cons (fun c => (c =? 47)%N) c t).
      rewrite <- E. apply dropWhile_idem. }
    apply N.eqb_neq in Hc. apply startsWith_cons_neq. congruence.
Qed.

(** C10. The allow-list looks at the host name only: for every
    endpoint that parses as a URL whose host name is allow-listed,
    whatever the scheme, port and path of the URL, [getUpstreamBase]
    succeeds, and what it returns is the endpoint string without the
    slashes at its end. The endpoint http://api.vectorengine.ai:8080/x,
    whose host name is api.vectorengine.ai, is accepted and returned
    as it is. *)
Theorem allowed_host_accepted (endpoint : jstr) (u : URL) :
  new_URL rt endpoint = Ok u ->
  (allowedHosts_has (hostname u) = true ->
   exists base n,
     getUpstreamBase rt endpoint = Ok base /\
     endpoint = base ++ repeat 47%N n /\
     endsWith base (lit "/") = false) /\
  (endpoint = lit "http://api.vectorengine.ai:8080/x" ->
   hostname u = lit "api.vectorengine.ai" ->
   getUpstreamBase rt endpoint = Ok endpoint).
Proof.
  intros Hu. split.
  - intros Hh. destruct (strip_trailing_slashes_spec endpoint) as [(n & E) Hs].
    exists (strip_trailing_slashes endpoint), n.
    unfold getUpstreamBase. rewrite Hu, Hh. auto.
  - intros -> Hh. unfold getUpstreamBase. rewrite Hu, Hh. reflexivity.
Qed.

(* ================================================================== *)
(** * The Gemini-compatible family *)
(* ================================================================== *)

Lemma partText_not_null (p : value) : partText p <> VNull.
Proof.
  unfold partText, or_else.
  destruct (get (Some p) (lit "text")) as [[| | | | |]|]; simpl; try discriminate.
  - destruct b; discriminate.
  - destruct x; discriminate.
  - destruct s; discriminate.
Qed.

(** Joining with the empty separator concatenates the converted
    elements. *)
Lemma join_with_concat (f : value -> result jstr) (vs : list value)
    (ts : list jstr) :
  Forall2 (fun v t => v <> VNull /\ f v = Ok t) vs ts ->
  join_with f [] vs = Ok (List.concat ts).
Proof.
  induction 1 as [|v t vs ts [Hv Ht] Hrest IH]; [reflexivity|].
  cbn [join_with List.concat].
  assert (E : match v with VNull => Ok [] | _ => f v end = Ok t).
  { destruct v; try exact Ht. congruence. }
  rewrite E. cbn [rbind].
  destruct vs as [|v' vs].
  - inversion Hrest. subst. simpl. now rewrite app_nil_r.
  - rewrite IH. reflexivity.
Qed.

(** C5, as the code has it. For every Gemini-compatible request that
    passes the method, field and credential checks, whose endpoint is
    accepted and whose upstream URL is well formed: exactly one
    upstream call is made, whatever its outcome; and when the upstream
    answers with a success status, the handler answers 200 with
    [usedModel] the normalized model and with [text] the empty string
    when the first candidate has no array of content parts, and
    otherwise the concatenation of the texts of the parts, where the
    text of a part is the string that its [text] field (or the empty
    string, when the field is absent or falsy) converts to. *)
Theorem gemini_single_call (req : Request) (st : St rt)
    (endpoint : jstr) (urlObj : URL) :
  method req = lit "POST" ->
  missing_required req = false ->
  rawToken_of (authorization req) <> [] ->
  isOpenAI (model_of req) = false ->
  getUpstreamBase rt (endpoint_of req) = Ok endpoint ->
  new_URL rt (geminiBaseUrl endpoint ++ lit "/models/" ++ model_of req
              ++ lit ":generateContent") = Ok urlObj ->
  exists rq out,
    calls (snd (handler rt req st)) = calls st ++ [(rq, out)] /\
    forall up, out = Ok up -> ok up = true ->
      let json := parse_or_null rt (up_text up) in
      ((forall parts, geminiParts json <> Some (VArr parts)) ->
       fst (handler rt req st) =
         {| res_status := 200;
            res_json := Generated (VStr []) (model_of req) |}) /\
      (forall parts texts,
         geminiParts json = Some (VArr parts) ->
         Forall2 (fun p t => ToString rt (partText p) = Ok t) parts texts ->
         fst (handler rt req st) =
           {| res_status := 200;
              res_json := Generated (VStr (List.concat texts)) (model_of req) |}).
Proof.
  intros Hpost Hreq Htok Hfam Hbase Hurl.
  destruct (handler_cases req st)
    as [(Hm & E)|[(Hm & Hr & E)|[(Hm & Hr & Ht & E)|(Hm & Hr & Ht & E)]]].
  - rewrite Hpost, jstr_eqb_refl in Hm. discriminate.
  - congruence.
  - destruct (rawToken_of (authorization req)); [congruence | discriminate].
  - rewrite E. fold (endpoint_of req) in Hbase.
    erewrite forward_gemini by eassumption.
    rewrite Hurl. cbv zeta.
    match goal with
    | |- context [fetch rt ?q (world st)] => set (rq := q)
    end.
    exists rq, (fst (fetch rt rq (world st))).
    destruct (fetch rt rq (world st)) as [[up|msg] w]; cbn [fst snd].
    2: { split; [reflexivity|]. intros up Hup. discriminate. }
    destruct (ok up) eqn:Hok; cbn [negb].
    2: { split; [reflexivity|]. intros up' Hup. injection Hup as <-. congruence. }
    assert (calls_eq : forall r : result Response,
              calls (snd (caught (r, {| world := w; calls := calls st ++ [(rq, Ok up)] |})))
              = calls st ++ [(rq, Ok up)]).
    { intros [r|msg]; reflexivity. }
    split.
    { destruct (geminiText rt _); apply calls_eq. }
    intros up' Hup _. injection Hup as <-. split.
    + intros Hparts. unfold geminiText.
      destruct (geminiParts _) as [[| | | |parts|]|]; try reflexivity.
      now destruct (Hparts parts).
    + intros parts texts Hparts Htexts. unfold geminiText. rewrite Hparts.
      erewrite join_with_concat with (ts := texts); [reflexivity|].
      clear Hparts. induction Htexts as [|p t ps ts Hp _ IH]; [constructor|].
      cbn [map]. constructor; [|exact IH].
      split; [apply partText_not_null | exact Hp].
Qed.

(* ================================================================== *)
(** * Failure responses *)
(* ================================================================== *)

(** The handler answers with the five-field failure object only from
    the [try] block, built from the last call made. *)
Lemma handler_failure (req : Request) (st : St rt) e us ct d tm :
  res_json (fst (handler rt req st)) = UpstreamFailure e us ct d tm ->
  exists pre rq up,
    calls (snd (handler rt req st)) = calls st ++ pre ++ [(rq, Ok up)] /\
    ok up = false /\
    fst (handler rt req st) =
      failure (up_status up) (String_or_empty (up_content_type up))
        (parse_or_null rt (up_text up)) (up_text up) (model_of req).
Proof.
  destruct (handler_cases req st)
    as [(Hm & E)|[(Hm & Hr & E)|[(Hm & Hr & Ht & E)|(Hm & Hr & Ht & E)]]];
    rewrite E; try discriminate.
  unfold caught.
  destruct (forward _ _ _ _ _ _ _ _) as [[r|msg] st'] eqn:F; cbn [fst snd];
    [|discriminate].
  intros H.
  apply forward_answers in F as [(t & u & ->)|(pre & rq & up & Hc & Hok & ->)];
    [discriminate|].
  exists pre, rq, up. auto.
Qed.

Lemma or_else_truthy (a : option value) (b : value) :
  truthy a = true -> Some (or_else a b) = a.
Proof.
  unfold or_else. destruct a as [v|]; [|discriminate]. now intros ->.
Qed.

Lemma or_else_falsy (a : option value) (b : value) :
  truthy a = false -> or_else a b = b.
Proof.
  unfold or_else. destruct a as [v|]; [|reflexivity]. now intros ->.
Qed.

Lemma raw_excerpt_blank (raw : jstr) : trim raw = [] -> raw_excerpt raw = [].
Proof. unfold raw_excerpt. now intros ->. Qed.

Lemma raw_excerpt_visible (raw : jstr) :
  trim raw <> [] -> raw_excerpt raw = slice_to 500 raw /\ raw_excerpt raw <> [].
Proof.
  intros H. unfold raw_excerpt.
  destruct (trim raw) as [|t0 ts] eqn:E; [congruence|]. cbn [is_empty negb].
  split; [reflexivity|].
  destruct raw as [|r0 raw]; [discriminate E|].
  unfold slice_to. rewrite firstn_cons. discriminate.
Qed.

(** C8, as the code has it. Every failure response of the handler, in
    either family, is built from the last upstream call made, which
    was answered with a failure status. Its status and [upstreamStatus]
    are that status and [upstreamContentType] is the content type of
    the answer. Its [error] is the [error.message] of the parsed body
    when that is truthy, else the top-level [message] when that is
    truthy, else the first 500 units of the raw body when the raw body
    is not blank, else the fixed text Upstream error. Its [detail] is
    the parsed body when the body parses to a value other than null,
    and otherwise the first 2000 units of the raw body. Its
    [triedModels] is the normalized model followed by its whole
    fallback chain, whether or not these were attempted. *)
Theorem upstream_failure_response (req : Request) (st : St rt) e us ct d tm :
  res_json (fst (handler rt req st)) = UpstreamFailure e us ct d tm ->
  exists pre rq up,
    calls (snd (handler rt req st)) = calls st ++ pre ++ [(rq, Ok up)] /\
    ok up = false /\
    let raw := up_text up in
    let json := parse_or_null rt raw in
    let error_message := get (get (Some json) (lit "error")) (lit "message") in
    let message := get (Some json) (lit "message") in
    res_status (fst (handler rt req st)) = up_status up /\
    us = up_status up /\
    ct = String_or_empty (up_content_type up) /\
    (truthy error_message = true -> Some e = error_message) /\
    (truthy error_message = false -> truthy message = true -> Some e = message) /\
    (truthy error_message = false -> truthy message = false -> trim raw <> [] ->
     e = VStr (slice_to 500 raw) /\ List.length (slice_to 500 raw) <= 500) /\
    (truthy error_message = false -> truthy message = false -> trim raw = [] ->
     e = VStr (lit "Upstream error")) /\
    (forall v, JSON_parse rt raw = Ok v -> v <> VNull -> d = v) /\
    ((forall v, JSON_parse rt raw = Ok v -> v = VNull) ->
     d = VStr (slice_to 2000 raw) /\ List.length (slice_to 2000 raw) <= 2000) /\
    tm = model_of req :: getModelFallbacks (model_of req).
Proof.
  intros H.
  destruct (handler_failure _ _ H) as (pre & rq & up & Hc & Hok & E).
  exists pre, rq, up. split; [exact Hc|]. split; [exact Hok|].
  rewrite E in H |- *. unfold failure in H |- *. cbn [res_json res_status] in H |- *.
  injection H as <- <- <- <- <-. cbv zeta.
  set (raw := up_text up). set (json := parse_or_null rt raw).
  split; [reflexivity|]. split; [reflexivity|]. split; [reflexivity|].
  unfold upstreamMessage.
  split; [|split; [|split; [|split; [|split; [|split]]]]].
  - intros T. now apply or_else_truthy.
  - intros T1 T2. rewrite (or_else_falsy _ _ T1). now apply or_else_truthy.
  - intros T1 T2 Hraw. rewrite (or_else_falsy _ _ T1), (or_else_falsy _ _ T2).
    destruct (raw_excerpt_visible _ Hraw) as [Ex Hne]. split.
    + rewrite <- Ex. unfold or_else.
      destruct (raw_excerpt raw); [congruence | reflexivity].
    + unfold slice_to. apply firstn_le_length.
  - intros T1 T2 Hraw. rewrite (or_else_falsy _ _ T1), (or_else_falsy _ _ T2).
    now rewrite (raw_excerpt_blank _ Hraw).
  - intros v Hv Hnn. subst json. unfold parse_or_null. rewrite Hv.
    destruct v; congruence || reflexivity.
  - intros Hnull. split; [|unfold slice_to; apply firstn_le_length].
    subst json. unfold parse_or_null.
    destruct (JSON_parse rt raw) as [v|msg]; [|reflexivity].
    now rewrite (Hnull v eq_refl).
  - reflexivity.
Qed.

(* ================================================================== *)
(** * The fallback loop *)
(* ================================================================== *)

(** A run of the loop over the candidates [ms]. Unless there is no
    candidate, the calls it makes are [init] followed by one last
    call; the calls go to the candidates in their order; every call of
    [init] was answered with a failure that looks like a missing
    model; and the last call decides the exit: a success returns 200
    with the candidate of that call, a failure that does not look like
    a missing model falls out of the loop at once, a failure that does
    falls out only when the candidates are used up, and an exception
    (of [fetch], or of the conversion of the message to a string)
    leaves the loop as it is thrown. *)
Lemma tryLoop_run url headers sys usr (ms : list jstr) :
  forall (last : Last) (st st' : St rt) (res : result LoopExit),
    tryLoop rt url headers sys usr ms last st = (res, st') ->
    (ms = [] /\ st' = st /\ res = Ok (Fell last)) \/
    exists init m out,
      calls st' = calls st ++ init ++ [(chatRequest url headers sys usr m, out)] /\
      map fst init ++ [chatRequest url headers sys usr m]
        = map (chatRequest url headers sys usr) (firstn (S (List.length init)) ms) /\
      S (List.length init) <= List.length ms /\
      Forall (fun c => exists up, snd c = Ok up /\ ok up = false /\
                                  looks_of rt up = Ok true) init /\
      match out with
      | Throw msg => res = Throw msg
      | Ok up =>
          if ok up then
            res = Ok (Returned
                        {| res_status := 200;
                           res_json := Generated (chatText (parse_or_null rt (up_text up))) m |})
          else
            match looks_of rt up with
            | Throw msg => res = Throw msg
            | Ok false => res = Ok (Fell (last_of rt up))
            | Ok true =>
                res = Ok (Fell (last_of rt up)) /\ S (List.length init) = List.length ms
            end
      end.
Proof.
  induction ms as [|m rest IH]; intros last st st' res H.
  - cbn in H. injection H as <- <-. now left.
  - right. rewrite tryLoop_cons in H. cbv zeta in H.
    set (rq := chatRequest url headers sys usr m) in *.
    destruct (fetch rt rq (world st)) as [[up|msg] w] eqn:F; cbn [fst snd] in H.
    2: { injection H as <- <-. exists [], m, (Throw msg). cbn.
         repeat split; auto. lia. }
    fold (looks_of rt up) in H.
    destruct (ok up) eqn:Hok.
    { injection H as <- <-. exists [], m, (Ok up). cbn. rewrite Hok.
      repeat split; auto. lia. }
    destruct (looks_of rt up) as [[|]|msg] eqn:Hl; cbn [negb] in H.
    + apply IH in H. cbn [calls] in H.
      destruct H as [(-> & -> & ->)|(init & m' & out & Hc & Hm & Hlen & Hall & Hout)].
      * exists [], m, (Ok up). cbn. rewrite Hok, Hl. repeat split; auto.
      * exists ((rq, Ok up) :: init), m', out.
        rewrite Hc, <- app_assoc. cbn [app List.length map fst firstn].
        split; [reflexivity|]. split; [now rewrite Hm|].
        split; [lia|]. split.
        -- constructor; [|exact Hall]. exists up. auto.
        -- destruct out as [up'|msg']; [|exact Hout].
           destruct (ok up'); [exact Hout|].
           destruct (looks_of rt up') as [[|]|]; try exact Hout.
           destruct Hout as [Hr Hn]. split; [exact Hr | lia].
    + injection H as <- <-. exists [], m, (Ok up). cbn. rewrite Hok, Hl.
      repeat split; auto. lia.
    + injection H as <- <-. exists [], m, (Ok up). cbn. rewrite Hok, Hl.
      repeat split; auto. lia.
Qed.

(** The run of an OpenAI-compatible request that reaches the loop: the
    attempts go to the normalized model and then to its fallback chain,
    in order; every attempt but the last was answered with a failure
    that looks like a missing model; the last attempt decides the
    answer of the handler. *)
Lemma openai_fallback_run (req : Request) (st : St rt)
    (endpoint : jstr) (urlObj : URL) :
  method req = lit "POST" ->
  missing_required req = false ->
  rawToken_of (authorization req) <> [] ->
  isOpenAI (model_of req) = true ->
  getUpstreamBase rt (endpoint_of req) = Ok endpoint ->
  new_URL rt (openaiBaseUrl endpoint ++ lit "/chat/completions") = Ok urlObj ->
  let tryModels := model_of req :: getModelFallbacks (model_of req) in
  let answer := fst (handler rt req st) in
  exists init rq m out,
    calls (snd (handler rt req st)) = calls st ++ init ++ [(rq, out)] /\
    attempted_models (init ++ [(rq, out)])
      = map Some (firstn (S (List.length init)) tryModels) /\
    nth_error tryModels (List.length init) = Some m /\
    Forall (fun c => exists up, snd c = Ok up /\ ok up = false /\
                                looks_of rt up = Ok true) init /\
    match out with
    | Throw msg => answer = {| res_status := 500; res_json := ErrorOnly msg |}
    | Ok up =>
        let surfaced :=
          failure (up_status up) (String_or_empty (up_content_type up))
            (parse_or_null rt (up_text up)) (up_text up) (model_of req) in
        if ok up then
          answer = {| res_status := 200;
                      res_json := Generated (chatText (parse_or_null rt (up_text up))) m |}
        else
          match looks_of rt up with
          | Throw msg => answer = {| res_status := 500; res_json := ErrorOnly msg |}
          | Ok false => answer = surfaced
          | Ok true => answer = surfaced /\ S (List.length init) = List.length tryModels
          end
    end.
Proof.
  intros Hpost Hreq Htok Hfam Hbase Hurl tryModels answer. subst answer.
  destruct (handler_cases req st)
    as [(Hm & E)|[(Hm & Hr & E)|[(Hm & Hr & Ht & E)|(Hm & Hr & Ht & E)]]].
  - rewrite Hpost, jstr_eqb_refl in Hm. discriminate.
  - congruence.
  - destruct (rawToken_of (authorization req)); [congruence | discriminate].
  - rewrite E. fold (endpoint_of req) in Hbase.
    erewrite forward_openai by eassumption. rewrite Hurl. fold tryModels.
    destruct (tryLoop rt _ _ _ _ tryModels initial_last st) as [res st'] eqn:L.
    apply tryLoop_run in L.
    destruct L as [(Z & _)|(init & m & out & Hc & Hm' & Hlen & Hall & Hout)];
      [discriminate Z|].
    set (chat := chatRequest (href urlObj) (openaiHeaders (rawToken_of (authorization req)))
                   (systemInstruction_of req) (userPrompt_of req)) in *.
    assert (Hatt : attempted_models (init ++ [(chat m, out)])
                   = map Some (firstn (S (List.length init)) tryModels)).
    { unfold attempted_models.
      rewrite <- (map_map fst attempted_model), map_app. cbn [map fst].
      rewrite Hm', map_map. reflexivity. }
    assert (Hnth : nth_error tryModels (List.length init) = Some m).
    { assert (Hn : nth_error (map fst init ++ [chat m]) (List.length init)
                   = Some (chat m)).
      { rewrite nth_error_app2 by (rewrite length_map; lia).
        rewrite length_map, Nat.sub_diag. reflexivity. }
      rewrite Hm', nth_error_map in Hn.
      rewrite nth_error_firstn in Hn.
      destruct (Nat.ltb_spec (List.length init) (S (List.length init))); [|lia].
      destruct (nth_error tryModels (List.length init)) as [m0|]; [|discriminate].
      cbn in Hn. injection Hn as Hn.
      assert (Hmm : attempted_model (chat m0) = attempted_model (chat m))
        by now rewrite Hn.
      cbn in Hmm. congruence. }
    exists init, (chat m), m, out.
    assert (snd_caught : forall r : result Response, snd (caught (r, st')) = st').
    { intros [r|msg]; reflexivity. }
    destruct res as [[r|l]|msg]; cbn [caught fst snd].
    + split; [exact Hc|]. split; [exact Hatt|]. split; [exact Hnth|].
      split; [exact Hall|].
      destruct out as [up|msg]; [|discriminate]. cbv zeta.
      destruct (ok up); [congruence|].
      destruct (looks_of rt up) as [[|]|]; try discriminate.
      now destruct Hout.
    + split; [exact Hc|]. split; [exact Hatt|]. split; [exact Hnth|].
      split; [exact Hall|].
      destruct out as [up|msg]; [|discriminate]. cbv zeta.
      destruct (ok up); [discriminate|].
      destruct (looks_of rt up) as [[|]|]; try discriminate.
      * destruct Hout as [Hl Hex]. injection Hl as ->. split; [reflexivity | exact Hex].
      * injection Hout as ->. reflexivity.
    + split; [exact Hc|]. split; [exact Hatt|]. split; [exact Hnth|].
      split; [exact Hall|].
      destruct out as [up|msg'].
      * cbv zeta. destruct (ok up); [discriminate|].
        destruct (looks_of rt up) as [[|]|]; try discriminate.
        -- now destruct Hout.
        -- congruence.
      * congruence.
Qed.

End HandlerFacts.

(* ================================================================== *)
(** * The properties on concrete requests *)
(* ================================================================== *)

Lemma normalizeModel_idempotent_witness :
  is_trimmed (lit "o1-mini") /\
  normalizeModel (Some (lit "o1-mini")) = lit "o1-mini" /\
  normalizeModel (Some (normalizeModel (Some (lit " gpt4o "))))
  = normalizeModel (Some (lit " gpt4o ")).
Proof.
  assert (T : is_trimmed (lit "o1-mini")) by (split; reflexivity).
  split; [exact T|]. split.
  - apply (proj2 normalizeModel_idempotent (lit "o1-mini") T).
    right. reflexivity.
  - apply (proj1 normalizeModel_idempotent).
Defined.

(** A name that starts with gpt- and ends with a space is returned
    without the space, not unchanged. *)
Lemma normalizeModel_trailing_space :
  startsWith (lit "gpt-4o ") (lit "gpt-") = true /\
  normalizeModel (Some (lit "gpt-4o ")) = lit "gpt-4o" /\
  normalizeModel (Some (lit "gpt-4o ")) <> lit "gpt-4o ".
Proof.
  split; [reflexivity|]. split; [reflexivity|].
  intros E. vm_compute in E. discriminate E.
Qed.

Lemma getModelFallbacks_chain_witness :
  getModelFallbacks (lit " gpt-4o ") = [lit "gpt-4o-mini"] /\
  ~ In (lit "gpt-4o") (getModelFallbacks (lit " gpt-4o ")) /\
  NoDup (getModelFallbacks (lit " gpt-4o ")) /\
  (forall row, In row spec_family_table -> fst row (trim (lit "claude-3")) = false) /\
  getModelFallbacks (lit "claude-3") = [].
Proof.
  destruct (getModelFallbacks_chain (lit " gpt-4o ")) as (E & Hin & Hnd & _).
  destruct (getModelFallbacks_chain (lit "claude-3")) as (_ & _ & _ & Hnone).
  assert (N : forall row, In row spec_family_table ->
                fst row (trim (lit "claude-3")) = false).
  { intros row H. simpl in H.
    repeat destruct H as [<-|H]; try contradiction; reflexivity. }
  split; [rewrite E; reflexivity|].
  split; [exact Hin|]. split; [exact Hnd|]. split; [exact N|].
  exact (Hnone N).
Defined.

Lemma validation_is_ordered_witness :
  let get_req := {| method := lit "GET"; authorization := None; body := None |} in
  let bare_post := {| method := lit "POST"; authorization := None; body := None |} in
  let no_token := Stub.post None "gpt-4o" "be brief" "hi" None in
  let st := Stub.start [] in
  method get_req <> lit "POST" /\
  handler Stub.runtime get_req st = (method_not_allowed, st) /\
  method bare_post = lit "POST" /\ missing_required bare_post = true /\
  rawToken_of (authorization bare_post) = [] /\
  handler Stub.runtime bare_post st = (missing_required_fields, st) /\
  res_status (fst (handler Stub.runtime no_token st)) = 401%Z /\
  method no_token = lit "POST" /\ model_of no_token <> [] /\
  systemInstruction_of no_token <> [] /\ userPrompt_of no_token <> [].
Proof.
  intros get_req bare_post no_token st.
  assert (G : method get_req <> lit "POST").
  { intros E. vm_compute in E. discriminate E. }
  split; [exact G|]. split.
  - exact (proj1 (@validation_is_ordered Stub.runtime get_req st) G).
  - split; [reflexivity|]. split; [reflexivity|]. split; [reflexivity|].
    split.
    + exact (proj1 (proj2 (@validation_is_ordered Stub.runtime bare_post st))
               eq_refl eq_refl).
    + split; [reflexivity|].
      exact (proj2 (proj2 (@validation_is_ordered Stub.runtime no_token st))
               eq_refl).
Defined.

Lemma missing_fields_rejected_witness :
  let empty_prompt := Stub.post (Some "Bearer k"%string) "gpt-4o" "be brief" "" None in
  let complete := Stub.post (Some "Bearer k"%string) "gpt-4o" "be brief" "hi" None in
  let st := Stub.start [Stub.answer 200 Stub.chat_hello] in
  method empty_prompt = lit "POST" /\ userPrompt_of empty_prompt = [] /\
  handler Stub.runtime empty_prompt st = (missing_required_fields, st) /\
  trim (String_or_empty (model (body_of complete))) <> [] /\
  systemInstruction_of complete <> [] /\ userPrompt_of complete <> [] /\
  fst (handler Stub.runtime complete st) <> missing_required_fields.
Proof.
  intros empty_prompt complete st.
  assert (P1 : method empty_prompt = lit "POST") by reflexivity.
  assert (P2 : method complete = lit "POST") by reflexivity.
  assert (U : userPrompt_of empty_prompt = []) by reflexivity.
  assert (N1 : trim (String_or_empty (model (body_of complete))) <> []).
  { intros E. vm_compute in E. discriminate E. }
  assert (N2 : systemInstruction_of complete <> []).
  { intros E. vm_compute in E. discriminate E. }
  assert (N3 : userPrompt_of complete <> []).
  { intros E. vm_compute in E. discriminate E. }
  split; [exact P1|]. split; [exact U|]. split.
  - apply (proj1 (@missing_fields_rejected Stub.runtime empty_prompt st P1)).
    right. right. exact U.
  - split; [exact N1|]. split; [exact N2|]. split; [exact N3|].
    exact (proj2 (@missing_fields_rejected Stub.runtime complete st P2) N1 N2 N3).
Defined.

(** A POST request whose system instruction is one space, which is
    empty after trimming, is not answered 400: it is forwarded, and
    the upstream is called. *)
Lemma blank_instruction_not_rejected :
  let req := Stub.post (Some "Bearer k"%string) "gpt-4o" " " "hi" None in
  let st := Stub.start [Stub.answer 200 Stub.chat_hello] in
  method req = lit "POST" /\
  trim (systemInstruction_of req) = [] /\
  fst (handler Stub.runtime req st)
  = {| res_status := 200;
       res_json := Generated (VStr (lit "hello")) (lit "gpt-4o") |} /\
  List.length (calls (snd (handler Stub.runtime req st))) = 1 /\
  fst (handler Stub.runtime req st) <> missing_required_fields.
Proof.
  cbv zeta. repeat split; try (vm_compute; reflexivity).
  intros E. vm_compute in E. discriminate E.
Qed.

Lemma disallowed_host_rejected_witness :
  let req := Stub.post (Some "Bearer k"%string) "gpt-4o" "be brief" "hi"
               (Some "https://evil.example.com"%string) in
  let st := Stub.start [Stub.answer 200 Stub.chat_hello] in
  let u := Stub.url "https://evil.example.com/" "https:" "evil.example.com" "" "/" in
  new_URL Stub.runtime (endpoint_of req) = Ok u /\
  allowedHosts_has (hostname u) = false /\
  method req = lit "POST" /\ missing_required req = false /\
  rawToken_of (authorization req) <> [] /\
  handler Stub.runtime req st = (host_not_allowed, st).
Proof.
  intros req st u.
  assert (U : new_URL Stub.runtime (endpoint_of req) = Ok u) by reflexivity.
  assert (A : allowedHosts_has (hostname u) = false) by reflexivity.
  assert (T : rawToken_of (authorization req) <> []).
  { intros E. vm_compute in E. discriminate E. }
  split; [exact U|]. split; [exact A|]. split; [reflexivity|].
  split; [reflexivity|]. split; [exact T|].
  exact (proj2 (@disallowed_host_rejected Stub.runtime req st u U (or_introl A))
           eq_refl eq_refl T).
Defined.

(** A GET request that names a host outside the allow-list is answered
    405, not 500. *)
Lemma disallowed_host_wrong_method :
  let req := {| method := lit "GET";
                authorization := Some (lit "Bearer k");
                body := Some {| model := Some (lit "gpt-4o");
                                systemInstruction := Some (lit "be brief");
                                userPrompt := Some (lit "hi");
                                enableThinking := None;
                                proxyEndpoint := Some (lit "https://evil.example.com") |} |} in
  let st := Stub.start [] in
  (exists u, new_URL Stub.runtime (endpoint_of req) = Ok u /\
             allowedHosts_has (hostname u) = false) /\
  handler Stub.runtime req st = (method_not_allowed, st) /\
  fst (handler Stub.runtime req st) <> host_not_allowed.
Proof.
  cbv zeta. split; [|split].
  - eexists. split; [vm_compute; reflexivity | reflexivity].
  - vm_compute. reflexivity.
  - intros E. vm_compute in E. discriminate E.
Qed.

Lemma allowed_host_accepted_witness :
  let endpoint := lit "http://api.vectorengine.ai:8080/x" in
  let u := Stub.url "http://api.vectorengine.ai:8080/x" "http:"
             "api.vectorengine.ai" "8080" "/x" in
  new_URL Stub.runtime endpoint = Ok u /\
  allowedHosts_has (hostname u) = true /\
  getUpstreamBase Stub.runtime endpoint = Ok endpoint /\
  exists base n,
    getUpstreamBase Stub.runtime endpoint = Ok base /\
    endpoint = base ++ repeat 47%N n /\ endsWith base (lit "/") = false.
Proof.
  intros endpoint u.
  assert (U : new_URL Stub.runtime endpoint = Ok u) by reflexivity.
  assert (A : allowedHosts_has (hostname u) = true) by reflexivity.
  split; [exact U|]. split; [exact A|].
  destruct (@allowed_host_accepted Stub.runtime endpoint u U) as [general example].
  split; [exact (example eq_refl eq_refl) | exact (general A)].
Defined.

Lemma gemini_single_call_witness :
  let req := Stub.post (Some "Bearer k"%string) "gemini-1.5-pro" "You are helpful"
               "hi" None in
  let st := Stub.start [Stub.answer 200 Stub.gemini_ab] in
  let endpoint := lit "https://api.vectorengine.ai" in
  let urlObj :=
    Stub.url "https://api.vectorengine.ai/v1beta/models/gemini-1.5-pro:generateContent"
      "https:" "api.vectorengine.ai" ""
      "/v1beta/models/gemini-1.5-pro:generateContent" in
  method req = lit "POST" /\ missing_required req = false /\
  rawToken_of (authorization req) <> [] /\
  isOpenAI (model_of req) = false /\
  getUpstreamBase Stub.runtime (endpoint_of req) = Ok endpoint /\
  new_URL Stub.runtime (geminiBaseUrl endpoint ++ lit "/models/" ++ model_of req
                        ++ lit ":generateContent") = Ok urlObj /\
  (exists rq out,
     calls (snd (handler Stub.runtime req st)) = calls st ++ [(rq, out)]) /\
  fst (handler Stub.runtime req st)
  = {| res_status := 200;
       res_json := Generated (VStr (lit "ab")) (lit "gemini-1.5-pro") |}.
Proof.
  intros req st endpoint urlObj.
  assert (T : rawToken_of (authorization req) <> []).
  { intros E. vm_compute in E. discriminate E. }
  assert (B : getUpstreamBase Stub.runtime (endpoint_of req) = Ok endpoint)
    by reflexivity.
  assert (U : new_URL Stub.runtime
                (geminiBaseUrl endpoint ++ lit "/models/" ++ model_of req
                 ++ lit ":generateContent") = Ok urlObj) by reflexivity.
  split; [reflexivity|]. split; [reflexivity|]. split; [exact T|].
  split; [reflexivity|]. split; [exact B|]. split; [exact U|].
  destruct (@gemini_single_call Stub.runtime req st endpoint urlObj
              eq_refl eq_refl T eq_refl B U) as (rq & out & Hcalls & Htext).
  split; [exists rq, out; exact Hcalls|].
  vm_compute in Hcalls. injection Hcalls as _ Hout. subst out.
  destruct (Htext _ eq_refl eq_refl) as [_ Hparts].
  apply (Hparts [Stub.obj1 "text" (VStr (lit "a")); Stub.obj1 "text" (VStr (lit "b"))]
           [lit "a"; lit "b"]).
  - reflexivity.
  - repeat constructor.
Defined.

(** The stub of the specification: the texts a and b of the two parts
    are concatenated. *)
Example gemini_parts_concatenated :
  fst (handler Stub.runtime
         (Stub.post (Some "Bearer k"%string) "gemini-1.5-pro" "You are helpful" "hi" None)
         (Stub.start [Stub.answer 200 Stub.gemini_ab]))
  = {| res_status := 200;
       res_json := Generated (VStr (lit "ab")) (lit "gemini-1.5-pro") |}.
Proof. vm_compute. reflexivity. Qed.

(** A Gemini-compatible request without a credential is answered 401:
    no upstream call is made, not one. *)
Lemma gemini_no_credential_no_call :
  let req := Stub.post None "gemini-1.5-pro" "You are helpful" "hi" None in
  let st := Stub.start [Stub.answer 200 Stub.gemini_ab] in
  isOpenAI (model_of req) = false /\
  handler Stub.runtime req st = (missing_proxy_token, st) /\
  calls (snd (handler Stub.runtime req st)) = [] /\
  ~ exists rq out, calls (snd (handler Stub.runtime req st)) = calls st ++ [(rq, out)].
Proof.
  cbv zeta. split; [reflexivity|]. split; [vm_compute; reflexivity|].
  split; [vm_compute; reflexivity|].
  intros (rq & out & E). vm_compute in E. discriminate E.
Qed.

Lemma upstream_failure_response_witness :
  let req := Stub.post (Some "Bearer k"%string) "gpt-4.1" "be brief" "hi" None in
  let st := Stub.start [Stub.answer 500 Stub.err_overloaded] in
  res_json (fst (handler Stub.runtime req st))
  = UpstreamFailure (VStr (lit "overloaded")) 500 (lit "application/json")
      Stub.err_overloaded
      [lit "gpt-4.1"; lit "gpt-4o-mini"; lit "gpt-4o"; lit "gpt-4.1-mini"] /\
  exists pre rq up,
    calls (snd (handler Stub.runtime req st)) = calls st ++ pre ++ [(rq, Ok up)] /\
    ok up = false /\ up_status up = 500%Z.
Proof.
  intros req st.
  assert (F : res_json (fst (handler Stub.runtime req st))
              = UpstreamFailure (VStr (lit "overloaded")) 500 (lit "application/json")
                  Stub.err_overloaded
                  [lit "gpt-4.1"; lit "gpt-4o-mini"; lit "gpt-4o"; lit "gpt-4.1-mini"])
    by (vm_compute; reflexivity).
  split; [exact F|].
  destruct (@upstream_failure_response Stub.runtime req st _ _ _ _ _ F)
    as (pre & rq & up & Hcalls & Hok & _ & Hus & _).
  exists pre, rq, up. split; [exact Hcalls|]. split; [exact Hok|].
  symmetry. exact Hus.
Defined.

(** Two failure responses that the claim does not describe. The first
    attempt for gpt-4.1 is answered 500, the loop stops, and
    [triedModels] lists four names of which one was attempted. A body
    that is the text null parses, to null, and [detail] is the raw
    text, not the parsed value. *)
Lemma triedModels_not_attempted :
  let req := Stub.post (Some "Bearer k"%string) "gpt-4.1" "be brief" "hi" None in
  let st := Stub.start [Stub.answer 500 Stub.err_overloaded] in
  let req' := Stub.post (Some "Bearer k"%string) "gemini-1.5-pro" "be brief" "hi" None in
  let st' := Stub.start [Stub.answer 502 VNull] in
  (res_json (fst (handler Stub.runtime req st))
   = UpstreamFailure (VStr (lit "overloaded")) 500 (lit "application/json")
       Stub.err_overloaded
       [lit "gpt-4.1"; lit "gpt-4o-mini"; lit "gpt-4o"; lit "gpt-4.1-mini"] /\
   attempted_models (calls (snd (handler Stub.runtime req st)))
   = [Some (lit "gpt-4.1")]) /\
  (JSON_parse Stub.runtime (lit "null") = Ok VNull /\
   res_json (fst (handler Stub.runtime req' st'))
   = UpstreamFailure (VStr (lit "null")) 502 (lit "application/json")
       (VStr (lit "null"))
       [lit "gemini-1.5-pro"; lit "gemini-1.5-flash"; lit "gemini-2.0-flash-exp"] /\
   List.length (calls (snd (handler Stub.runtime req' st'))) = 1).
Proof.
  cbv zeta. repeat split; vm_compute; reflexivity.
Qed.

(** C2, where the code departs from it. The first attempt for gpt-4o
    is answered 404 with a body whose [error.message] is an object
    with an own [toString] property. The test of the message against
    the model keyword converts it to a string, the conversion throws,
    and the handler answers 500 with the message of that exception:
    the 404 of the upstream is not surfaced, and the fallback gpt-4o-mini
    is not tried. *)
Theorem fallback_message_without_primitive :
  let req := Stub.post (Some "Bearer k"%string) "gpt-4o" "be brief" "hi" None in
  let st := Stub.start [Stub.answer 404 Stub.err_no_primitive;
                        Stub.answer 200 Stub.chat_hello] in
  isOpenAI (model_of req) = true /\
  getModelFallbacks (model_of req) = [lit "gpt-4o-mini"] /\
  fst (handler Stub.runtime req st)
  = {| res_status := 500;
       res_json := ErrorOnly (lit "Cannot convert object to primitive value") |} /\
  map snd (calls (snd (handler Stub.runtime req st)))
  = [Stub.answer 404 Stub.err_no_primitive] /\
  attempted_models (calls (snd (handler Stub.runtime req st)))
  = [Some (lit "gpt-4o")].
Proof.
  cbv zeta. repeat split; vm_compute; reflexivity.
Qed.

(** The stubs of section 8 of the specification. *)
Example chat_hello_4o_mini :
  fst (handler Stub.runtime
         (Stub.post (Some "Bearer k"%string) "4o-mini" "You are helpful" "hi" None)
         (Stub.start [Stub.answer 200 Stub.chat_hello]))
  = {| res_status := 200;
       res_json := Generated (VStr (lit "hello")) (lit "gpt-4o-mini") |}.
Proof. vm_compute. reflexivity. Qed.

Example fallback_after_model_not_found :
  let out :=
    handler Stub.runtime
      (Stub.post (Some "Bearer k"%string) "4o-mini" "You are helpful" "hi" None)
      (Stub.start [Stub.answer 404 Stub.err_model_not_found;
                   Stub.answer 200 Stub.chat_hello]) in
  fst out = {| res_status := 200;
               res_json := Generated (VStr (lit "hello")) (lit "gpt-4o") |} /\
  attempted_models (calls (snd out)) = [Some (lit "gpt-4o-mini"); Some (lit "gpt-4o")].
Proof. cbv zeta. split; vm_compute; reflexivity. Qed.

Example missing_authorization_401 :
  let st := Stub.start [Stub.answer 200 Stub.chat_hello] in
  handler Stub.runtime (Stub.post None "gpt-4o" "You are helpful" "hi" None) st
  = (missing_proxy_token, st).
Proof. vm_compute. reflexivity. Qed.

(* ================================================================== *)
(** * Further properties of model names *)
(* ================================================================== *)

Lemma startsWith_prefix (s p q : jstr) :
  startsWith s (p ++ q) = true -> startsWith s p = true.
Proof.
  revert s; induction p as [|a p IH]; intros s H; [reflexivity|].
  destruct s as [|b s]; [discriminate H|]. simpl in *.
  apply andb_true_iff in H as [Hab Hs]. rewrite Hab. now apply IH.
Qed.

Lemma includes_startsWith (s p : jstr) :
  startsWith s p = true -> includes s p = true.
Proof. intros H. destruct s; simpl; now rewrite H. Qed.

Lemma includes_prefix (s p q : jstr) :
  includes s (p ++ q) = true -> includes s p = true.
Proof.
  induction s as [|c s IH]; simpl; intros H.
  - rewrite orb_false_r in *. now apply startsWith_prefix with (q := q).
  - apply orb_true_iff in H as [H|H].
    + apply startsWith_prefix in H. now rewrite H.
    + rewrite (IH H). apply orb_true_r.
Qed.

(** The normalized name in terms of the trimmed input. *)
Lemma normalizeModel_cases (input : option jstr) :
  let m := trim (String_or_empty input) in
  (normalizeModel input = m /\
   (m = [] \/
    startsWith m (lit "gpt-") || startsWith m (lit "o1") = true \/
    (startsWith m (lit "gpt-") || startsWith m (lit "o1") = false /\
     startsWith m (lit "gpt") = false /\
     test_dotted_numeric m = false /\ test_4o m = false))) \/
  (startsWith m (lit "gpt-") || startsWith m (lit "o1") = false /\
   exists rest,
     normalizeModel input = lit "gpt-" ++ rest /\
     dropWhile isWhiteSpace (rev rest) = rev rest /\
     ((startsWith m (lit "gpt") = true /\ m = lit "gpt" ++ rest) \/
      (startsWith m (lit "gpt") = false /\ rest = m /\
       test_dotted_numeric m || test_4o m = true))).
Proof.
  intros m. unfold normalizeModel. fold m.
  assert (Ht : is_trimmed m) by apply trim_is_trimmed.
  destruct (is_empty m) eqn:He.
  { left. split; [reflexivity|]. left. now destruct m. }
  destruct (startsWith m (lit "gpt-") || startsWith m (lit "o1")) eqn:H1.
  { left. auto. }
  destruct (startsWith m (lit "gpt")) eqn:H2.
  { right. split; [reflexivity|]. exists (slice_from 3 m).
    split; [reflexivity|].
    pose proof (startsWith_split _ _ H2) as Hm.
    change (List.length (lit "gpt")) with 3 in Hm. fold (slice_from 3 m) in Hm.
    split; [|left; auto].
    destruct Ht as [_ Hrev]. rewrite Hm in Hrev at 1 2. rewrite rev_app_distr in Hrev.
    destruct (slice_from 3 m) as [|c rest]; [reflexivity|].
    apply dropWhile_fixed_app_inv in Hrev; [exact Hrev|].
    simpl. intros E. now apply app_eq_nil in E as [_ E]. }
  destruct (test_dotted_numeric m) eqn:H3.
  { right. split; [reflexivity|]. exists m. split; [reflexivity|].
    split; [apply Ht|]. right. auto. }
  destruct (test_4o m) eqn:H4.
  { right. split; [reflexivity|]. exists m. split; [reflexivity|].
    split; [apply Ht|]. right. auto. }
  left. split; [reflexivity|]. right. right. auto.
Qed.

(** X1. White space around a model name is irrelevant to
    normalization, and the normalized name never has white space at
    its ends. *)
Theorem normalizeModel_ignores_outer_space (s : jstr) :
  normalizeModel (Some (trim s)) = normalizeModel (Some s) /\
  is_trimmed (normalizeModel (Some s)).
Proof.
  split.
  - unfold normalizeModel, String_or_empty. now rewrite trim_idempotent.
  - destruct (normalizeModel_cases (Some s))
      as [[-> _]|(_ & rest & -> & Hrest & _)].
    + apply trim_is_trimmed.
    + now apply gpt_dash_trimmed.
Qed.

(** X2. A normalized name that starts with gpt starts with gpt-: the
    hyphen is never missing after normalization. *)
Theorem normalizeModel_gpt_has_hyphen (input : option jstr) :
  startsWith (normalizeModel input) (lit "gpt")
  = startsWith (normalizeModel input) (lit "gpt-").
Proof.
  destruct (normalizeModel_cases input)
    as [[-> [E|[H|(H1 & H2 & _)]]]|(_ & rest & -> & _)].
  - rewrite E. reflexivity.
  - destruct (startsWith _ (lit "gpt-")) eqn:Hg.
    + now apply (startsWith_prefix _ (lit "gpt") (lit "-")).
    + cbn [orb] in H. apply startsWith_split in H. rewrite H. reflexivity.
  - apply orb_false_iff in H1 as [-> _]. exact H2.
  - reflexivity.
Qed.

(** X3. Which inputs are routed to the OpenAI-compatible family: those
    whose trimmed form starts with gpt or o1, is dotted-numeric, or is
    4o with an optional hyphenated suffix. Every other input, the empty
    one included, goes to the Gemini-compatible family. *)
Theorem routing_of_input (input : option jstr) :
  let m := trim (String_or_empty input) in
  isOpenAI (normalizeModel input)
  = startsWith m (lit "gpt") || startsWith m (lit "o1")
    || test_dotted_numeric m || test_4o m.
Proof.
  cbv zeta. unfold isOpenAI.
  pose proof (normalizeModel_cases input) as C. cbv zeta in C.
  set (m := trim (String_or_empty input)) in *.
  destruct C
    as [[-> [E|[H|(H1 & H2 & H3 & H4)]]]|(H1 & rest & -> & _ & [[H2 _]|(H2 & Hr & H3)])].
  - rewrite E. reflexivity.
  - apply orb_true_iff in H as [H|H].
    + apply (startsWith_prefix _ (lit "gpt") (lit "-")) in H. now rewrite H.
    + rewrite H, orb_true_r. reflexivity.
  - apply orb_false_iff in H1 as [_ Ho]. now rewrite H2, Ho, H3, H4.
  - now rewrite H2.
  - apply orb_false_iff in H1 as [_ Ho]. rewrite H2, Ho. cbn [orb].
    now rewrite H3.
Qed.

(* ================================================================== *)
(** * Further properties of the fallback chain *)
(* ================================================================== *)

(** The chain is the candidate list of the family without the model
    itself. *)
Lemma getModelFallbacks_filter (model : jstr) :
  getModelFallbacks model
  = filter (fun x => negb (jstr_eqb x (trim model))) (spec_candidates (trim model)).
Proof.
  destruct (spec_candidates_distinct (trim model)) as [Hnd Hne].
  unfold getModelFallbacks, String_or_empty.
  destruct (is_empty (trim model)) eqn:Hm.
  - destruct (trim model); [reflexivity | discriminate].
  - rewrite family_fallbacks_table.
    rewrite Array_from_Set_NoDup by now apply NoDup_filter.
    apply filter_ext_in. intros x Hx. now rewrite (Hne x Hx).
Qed.

(** The candidates of a model are those of one of three lists. *)
Lemma spec_candidates_cases (m : jstr) :
  spec_candidates m = [] \/
  spec_candidates m = [lit "gpt-4o-mini"; lit "gpt-4o"; lit "gpt-4.1-mini"] \/
  spec_candidates m = [lit "gpt-4o-mini"; lit "gpt-4o"] \/
  (includes m (lit "gemini") = true /\
   (startsWith m (lit "gpt-4") = false /\ startsWith m (lit "o1") = false) /\
   (spec_candidates m = [lit "gemini-1.5-flash"; lit "gemini-1.5-pro"] \/
    spec_candidates m
    = [lit "gemini-1.5-flash"; lit "gemini-1.5-pro"; lit "gemini-2.0-flash-exp"])).
Proof.
  unfold spec_candidates, spec_family_table, spec_first_match.
  destruct (startsWith m (lit "gpt-4.1")); [tauto|].
  destruct (startsWith m (lit "gpt-4o")); [tauto|].
  destruct (startsWith m (lit "gpt-4")); [tauto|].
  destruct (startsWith m (lit "o1")); [tauto|].
  destruct (includes m (lit "gemini-2.0-flash")) eqn:H5.
  { apply (includes_prefix m (lit "gemini") (lit "-2.0-flash")) in H5.
    right. right. right. tauto. }
  destruct (includes m (lit "gemini")); tauto.
Qed.

Lemma filter_length_le (f : jstr -> bool) (l : list jstr) :
  List.length (filter f l) <= List.length l.
Proof.
  induction l as [|x l IH]; simpl; [lia|]. destruct (f x); simpl; lia.
Qed.

(** X4. The list of models that a request may be tried with, the
    normalized model followed by its fallback chain, never names a
    model twice and has at most four entries. *)
Theorem tryModels_distinct (req : Request) :
  NoDup (tryModels_of req) /\ List.length (tryModels_of req) <= 4.
Proof.
  unfold tryModels_of, model_of.
  set (m := normalizeModel (model (body_of req))).
  assert (Hm : trim m = m).
  { apply trim_of_trimmed. unfold m.
    destruct (normalizeModel_cases (model (body_of req)))
      as [[-> _]|(_ & rest & -> & Hrest & _)].
    - apply trim_is_trimmed.
    - now apply gpt_dash_trimmed. }
  rewrite getModelFallbacks_filter, Hm. split.
  - constructor.
    + intros H. apply filter_In in H as [_ H].
      rewrite jstr_eqb_refl in H. discriminate.
    + apply NoDup_filter. apply spec_candidates_distinct.
  - pose proof (filter_length_le (fun x => negb (jstr_eqb x m)) (spec_candidates m)) as L.
    change (List.length (m :: filter (fun x => negb (jstr_eqb x m)) (spec_candidates m)))
      with (S (List.length (filter (fun x => negb (jstr_eqb x m)) (spec_candidates m)))).
    assert (C : List.length (spec_candidates m) <= 3).
    { destruct (spec_candidates_cases m) as [E|[E|[E|(_ & _ & [E|E])]]];
        rewrite E; simpl; lia. }
    lia.
Qed.

(** X5. Every fallback is one of the six names that the code pushes;
    a blank model has no fallbacks; and white space around the model
    does not change its chain. *)
Theorem getModelFallbacks_closed (model : jstr) :
  incl (getModelFallbacks model) pushed_fallbacks /\
  (trim model = [] -> getModelFallbacks model = []) /\
  getModelFallbacks (trim model) = getModelFallbacks model.
Proof.
  split; [|split].
  - rewrite getModelFallbacks_filter. intros x Hx.
    apply filter_In in Hx as [Hx _]. unfold pushed_fallbacks.
    destruct (spec_candidates_cases (trim model)) as [E|[E|[E|(_ & _ & [E|E])]]];
      rewrite E in Hx; simpl in Hx |- *; intuition.
  - intros H. unfold getModelFallbacks, String_or_empty. now rewrite H.
  - rewrite !getModelFallbacks_filter. now rewrite trim_idempotent.
Qed.

Lemma getModelFallbacks_closed_witness :
  trim (lit "  ") = [] /\ getModelFallbacks (lit "  ") = [] /\
  incl (getModelFallbacks (lit "gemini-pro")) pushed_fallbacks.
Proof.
  assert (B : trim (lit "  ") = []) by reflexivity.
  split; [exact B|]. split.
  - exact (proj1 (proj2 (getModelFallbacks_closed (lit "  "))) B).
  - exact (proj1 (getModelFallbacks_closed (lit "gemini-pro"))).
Defined.

(** X6. Fallbacks stay in the family of the model: a model whose name
    does not contain gemini falls back to gpt- names only, and a model
    that starts with neither gpt nor o1 falls back to gemini- names
    only. A name such as gpt-gemini, which starts with gpt and contains
    gemini, is the one kind that is routed to chat completions with
    gemini- fallbacks. *)
Theorem fallbacks_stay_in_family (model : jstr) :
  (includes (trim model) (lit "gemini") = false ->
   Forall (fun x => startsWith x (lit "gpt-") = true) (getModelFallbacks model)) /\
  (isOpenAI (trim model) = false ->
   Forall (fun x => startsWith x (lit "gemini-") = true) (getModelFallbacks model)) /\
  (isOpenAI (lit "gpt-gemini") = true /\
   getModelFallbacks (lit "gpt-gemini")
   = [lit "gemini-1.5-flash"; lit "gemini-1.5-pro"; lit "gemini-2.0-flash-exp"]).
Proof.
  split; [|split; [|split; reflexivity]].
  - intros Hg. rewrite getModelFallbacks_filter. apply Forall_forall.
    intros x Hx. apply filter_In in Hx as [Hx _].
    destruct (spec_candidates_cases (trim model)) as [E|[E|[E|(Hi & _)]]];
      [rewrite E in Hx; simpl in Hx; intuition; subst; reflexivity ..|congruence].
  - intros Ho. rewrite getModelFallbacks_filter. apply Forall_forall.
    intros x Hx. apply filter_In in Hx as [Hx _].
    unfold isOpenAI in Ho. apply orb_false_iff in Ho as [Hgpt Ho1].
    assert (H4 : forall q, startsWith (trim model) (lit "gpt" ++ q) = false).
    { intros q. destruct (startsWith (trim model) (lit "gpt" ++ q)) eqn:E; [|reflexivity].
      apply startsWith_prefix in E. congruence. }
    revert Hx. unfold spec_candidates, spec_family_table, spec_first_match.
    change (lit "gpt-4.1") with (lit "gpt" ++ lit "-4.1").
    change (lit "gpt-4o") with (lit "gpt" ++ lit "-4o").
    change (lit "gpt-4") with (lit "gpt" ++ lit "-4").
    rewrite !H4, Ho1.
    destruct (includes (trim model) (lit "gemini-2.0-flash"));
      [|destruct (includes (trim model) (lit "gemini"))];
      simpl; intuition; subst; reflexivity.
Qed.

Lemma fallbacks_stay_in_family_witness :
  includes (trim (lit "gpt-4.1")) (lit "gemini") = false /\
  Forall (fun x => startsWith x (lit "gpt-") = true) (getModelFallbacks (lit "gpt-4.1")) /\
  isOpenAI (trim (lit "gemini-1.5-pro")) = false /\
  Forall (fun x => startsWith x (lit "gemini-") = true)
    (getModelFallbacks (lit "gemini-1.5-pro")).
Proof.
  split; [reflexivity|]. split.
  - exact (proj1 (fallbacks_stay_in_family (lit "gpt-4.1")) eq_refl).
  - split; [reflexivity|].
    exact (proj1 (proj2 (fallbacks_stay_in_family (lit "gemini-1.5-pro"))) eq_refl).
Defined.

(* ================================================================== *)
(** * The credential and the endpoint of a request *)
(* ================================================================== *)

Lemma trim_visible_head (c : char16) (s : jstr) :
  isWhiteSpace c = false -> trim (c :: s) <> [].
Proof.
  intros Hc. unfold trim, trimEnd, trimStart.
  cbn [dropWhile]. rewrite Hc.
  change (rev (c :: s)) with (rev s ++ [c]).
  rewrite dropWhile_app_fixed by (simpl; now rewrite Hc).
  rewrite rev_app_distr. discriminate.
Qed.

Lemma rawToken_of_is_trim (auth : option jstr) :
  exists x, rawToken_of auth = trim x.
Proof.
  unfold rawToken_of. destruct (startsWith _ _); eauto.
Qed.

(** X7. The credential is empty exactly when the Authorization header
    is absent, is blank, or is the prefix Bearer followed by a space
    and then nothing but white space. *)
Theorem rawToken_empty_iff (auth : option jstr) :
  rawToken_of auth = [] <->
  auth = None \/
  exists a, auth = Some a /\
            (trim a = [] \/ exists t, a = lit "Bearer " ++ t /\ trim t = []).
Proof.
  destruct auth as [a|].
  2: { split; [now left | reflexivity]. }
  unfold rawToken_of. split.
  - intros H. right. exists a. split; [reflexivity|].
    destruct (startsWith a (lit "Bearer ")) eqn:Hb.
    + right. exists (slice_from 7 a). split; [|exact H].
      exact (startsWith_split _ _ Hb).
    + now left.
  - intros [H|(a' & Ha & [H|(t & Ht & Hblank)])]; [discriminate| |];
      injection Ha as <-.
    + destruct (startsWith a (lit "Bearer ")) eqn:Hb; [|exact H].
      apply startsWith_split in Hb. rewrite Hb in H.
      exfalso. revert H. now apply trim_visible_head.
    + subst a. rewrite startsWith_app. exact Hblank.
Qed.

(** X8. The credential has no white space at its ends, and the
    Authorization header that the handler sends upstream, Bearer
    followed by the credential, reads back as the same credential. *)
Theorem rawToken_round_trip (auth : option jstr) :
  is_trimmed (rawToken_of auth) /\
  rawToken_of (Some (lit "Bearer " ++ rawToken_of auth)) = rawToken_of auth.
Proof.
  destruct (rawToken_of_is_trim auth) as [x Hx].
  assert (T : is_trimmed (rawToken_of auth)) by (rewrite Hx; apply trim_is_trimmed).
  split; [exact T|].
  unfold rawToken_of at 1. rewrite startsWith_app.
  change (slice_from 7 (lit "Bearer " ++ rawToken_of auth)) with (rawToken_of auth).
  now apply trim_of_trimmed.
Qed.

(** X9. The endpoint handed to [getUpstreamBase] is the trimmed
    [proxyEndpoint] of the body, and the default endpoint when that
    field is absent, empty or blank; it is never empty and has no
    white space at its ends. *)
Theorem endpoint_defaulting (req : Request) :
  let given := String_or_empty (proxyEndpoint (body_of req)) in
  (trim given = [] -> endpoint_of req = default_endpoint) /\
  (trim given <> [] -> endpoint_of req = trim given) /\
  endpoint_of req <> [] /\ is_trimmed (endpoint_of req).
Proof.
  cbv zeta. unfold endpoint_of, proxyEndpoint_of.
  destruct (proxyEndpoint (body_of req)) as [[|c s]|]; cbn [String_or_empty is_empty negb].
  1, 3: repeat split; try reflexivity; try discriminate; intros H; now destruct H.
  destruct (trim (c :: s)) as [|t0 ts] eqn:E; cbn [is_empty negb].
  - repeat split; try reflexivity; try discriminate. congruence.
  - rewrite <- E. repeat split; try discriminate; try apply trim_is_trimmed.
    + rewrite E. discriminate.
    + rewrite E. discriminate.
Qed.

Lemma endpoint_defaulting_witness :
  let blank := Stub.post None "m" "s" "u" (Some "   "%string) in
  let given := Stub.post None "m" "s" "u"
                 (Some " https://evil.example.com "%string) in
  trim (String_or_empty (proxyEndpoint (body_of blank))) = [] /\
  endpoint_of blank = default_endpoint /\
  trim (String_or_empty (proxyEndpoint (body_of given))) <> [] /\
  endpoint_of given = lit "https://evil.example.com".
Proof.
  intros blank given.
  assert (B : trim (String_or_empty (proxyEndpoint (body_of blank))) = [])
    by reflexivity.
  assert (G : trim (String_or_empty (proxyEndpoint (body_of given))) <> []).
  { intros E. vm_compute in E. discriminate E. }
  split; [exact B|]. split; [exact (proj1 (endpoint_defaulting blank) B)|].
  split; [exact G|].
  exact (proj1 (proj2 (endpoint_defaulting given)) G).
Defined.

(* ================================================================== *)
(** * The upstream URLs *)
(* ================================================================== *)

Lemma endsWith_app (s p : jstr) : endsWith (s ++ p) p = true.
Proof. unfold endsWith. rewrite rev_app_distr. apply startsWith_app. Qed.

Lemma startsWith_refl (p : jstr) : startsWith p p = true.
Proof. rewrite <- (app_nil_r p) at 1. apply startsWith_app. Qed.

Lemma includes_app_r (s p : jstr) : includes (s ++ p) p = true.
Proof.
  induction s as [|c s IH]; simpl.
  - apply includes_startsWith, startsWith_refl.
  - rewrite IH. apply orb_true_r.
Qed.

(** X10. The base of the chat-completions URL always ends with /v1 and
    never with /v1beta, whatever the endpoint; a base that has this
    form is left as it is. *)
Theorem openaiBaseUrl_ends_with_v1 (endpoint : jstr) :
  endsWith (openaiBaseUrl endpoint) (lit "/v1") = true /\
  endsWith (openaiBaseUrl endpoint) (lit "/v1beta") = false /\
  openaiBaseUrl (openaiBaseUrl endpoint) = openaiBaseUrl endpoint.
Proof.
  assert (V : endsWith (openaiBaseUrl endpoint) (lit "/v1") = true).
  { unfold openaiBaseUrl.
    destruct (endsWith endpoint (lit "/v1beta")); [apply endsWith_app|].
    destruct (endsWith endpoint (lit "/v1")) eqn:E; [exact E | apply endsWith_app]. }
  assert (B : endsWith (openaiBaseUrl endpoint) (lit "/v1beta") = false).
  { unfold endsWith in V |- *. apply startsWith_split in V.
    rewrite V. reflexivity. }
  split; [exact V|]. split; [exact B|].
  unfold openaiBaseUrl at 1. now rewrite B, V.
Qed.

(** X11. The base of the generateContent URL always contains /v1beta,
    whatever the endpoint; a base that contains it is left as it is. *)
Theorem geminiBaseUrl_contains_v1beta (endpoint : jstr) :
  includes (geminiBaseUrl endpoint) (lit "/v1beta") = true /\
  geminiBaseUrl (geminiBaseUrl endpoint) = geminiBaseUrl endpoint.
Proof.
  assert (V : includes (geminiBaseUrl endpoint) (lit "/v1beta") = true).
  { unfold geminiBaseUrl.
    destruct (includes endpoint (lit "/v1beta")) eqn:E;
      [exact E | apply includes_app_r]. }
  split; [exact V|]. unfold geminiBaseUrl at 1. now rewrite V.
Qed.

(* ================================================================== *)
(** * The model-not-found test *)
(* ================================================================== *)

Lemma canonicalize_idempotent (c : char16) :
  canonicalize (canonicalize c) = canonicalize c.
Proof.
  unfold canonicalize.
  destruct ((97 <=? c)%N && (c <=? 122)%N) eqn:E; [|now rewrite E].
  apply andb_true_iff in E as [E1 E2]. apply N.leb_le in E1, E2.
  assert (Z : ((97 <=? c - 32)%N && (c - 32 <=? 122)%N) = false).
  { apply andb_false_iff. left. apply N.leb_gt. lia. }
  now rewrite Z.
Qed.

Lemma startsWith_i_canonical (s p : jstr) :
  startsWith_i (map canonicalize s) p = startsWith_i s p.
Proof.
  revert s; induction p as [|a p IH]; intros [|b s]; try reflexivity.
  simpl. now rewrite canonicalize_idempotent, IH.
Qed.

Lemma test_i_canonical (p s : jstr) :
  test_i p (map canonicalize s) = test_i p s.
Proof.
  induction s as [|c s IH].
  - reflexivity.
  - change (map canonicalize (c :: s)) with (canonicalize c :: map canonicalize s).
    cbn [test_i]. rewrite IH.
    change (canonicalize c :: map canonicalize s) with (map canonicalize (c :: s)).
    now rewrite startsWith_i_canonical.
Qed.

(** X12. The model-not-found test does not see the case of ASCII
    letters: two string messages that are equal up to the case of
    their ASCII letters get the same verdict, for every status. *)
Theorem looksLikeModelNotFound_ignores_case (rt : Runtime) (status : Z)
    (s s' : jstr) :
  map canonicalize s = map canonicalize s' ->
  looksLikeModelNotFound rt status (VStr s)
  = looksLikeModelNotFound rt status (VStr s').
Proof.
  intros H. unfold looksLikeModelNotFound.
  destruct (negb (status =? 404)%Z); [reflexivity|].
  assert (O : forall x, or_else (Some (VStr x)) (VStr []) = VStr x).
  { intros [|c x]; reflexivity. }
  rewrite !O. cbn [ToString rbind].
  assert (T : forall p, test_i p s = test_i p s').
  { intros p. rewrite <- (test_i_canonical p s), <- (test_i_canonical p s').
    now rewrite H. }
  assert (N : test_not_found s = test_not_found s').
  { unfold test_not_found.
    induction not_found_phrasings as [|p l IH]; simpl; [reflexivity|].
    now rewrite T, IH. }
  now rewrite !T, N.
Qed.

Lemma looksLikeModelNotFound_ignores_case_witness :
  map canonicalize (lit "MODEL Not Found") = map canonicalize (lit "model not found") /\
  looksLikeModelNotFound Stub.runtime 404 (VStr (lit "MODEL Not Found")) = Ok true.
Proof.
  assert (E : map canonicalize (lit "MODEL Not Found")
              = map canonicalize (lit "model not found")) by reflexivity.
  split; [exact E|].
  rewrite (@looksLikeModelNotFound_ignores_case Stub.runtime 404 _ _ E).
  reflexivity.
Defined.

(* ================================================================== *)
(** * Runs of the handler *)
(* ================================================================== *)

Section HandlerRuns.

Variable rt : Runtime.

(** Every run of the handler. Either no upstream call is made and the
    answer is an error object with status 405, 400, 401 or 500; or the
    request passed the checks, its endpoint was accepted, the upstream
    URL was built, and the calls are those of the fallback loop or the
    single call of the Gemini-compatible family. *)
Lemma handler_run (req : Request) (st : St rt) :
  (snd (handler rt req st) = st /\
   exists status msg,
     fst (handler rt req st) = {| res_status := status; res_json := ErrorOnly msg |} /\
     In status [405; 400; 401; 500]%Z) \/
  (method req = lit "POST" /\ missing_required req = false /\
   rawToken_of (authorization req) <> [] /\
   exists endpoint urlObj,
     getUpstreamBase rt (endpoint_of req) = Ok endpoint /\
     ((isOpenAI (model_of req) = true /\
       new_URL rt (openaiBaseUrl endpoint ++ lit "/chat/completions") = Ok urlObj /\
       exists init m out,
         let chat := chatRequest (href urlObj)
                       (openaiHeaders (rawToken_of (authorization req)))
                       (systemInstruction_of req) (userPrompt_of req) in
         calls (snd (handler rt req st)) = calls st ++ init ++ [(chat m, out)] /\
         map fst init = map chat (firstn (List.length init) (tryModels_of req)) /\
         nth_error (tryModels_of req) (List.length init) = Some m /\
         Forall (fun c => exists up, snd c = Ok up /\ ok up = false /\
                                     looks_of rt up = Ok true) init /\
         loop_outcome rt (model_of req) m
           (S (List.length init) = List.length (tryModels_of req)) out
           (fst (handler rt req st))) \/
      (isOpenAI (model_of req) = false /\
       new_URL rt (geminiBaseUrl endpoint ++ lit "/models/" ++ model_of req
                   ++ lit ":generateContent") = Ok urlObj /\
       exists out,
         calls (snd (handler rt req st))
         = calls st ++ [(geminiRequest urlObj (model_of req) (systemInstruction_of req)
                           (userPrompt_of req)
                           (match enableThinking (body_of req) with
                            | Some v => v
                            | None => false
                            end)
                           (rawToken_of (authorization req)), out)] /\
         gemini_outcome rt (model_of req) out (fst (handler rt req st))))).
Proof.
  destruct (handler_cases req st)
    as [(Hm & E)|[(Hm & Hr & E)|[(Hm & Hr & Ht & E)|(Hm & Hr & Ht & E)]]].
  1-3: left; rewrite E; split; [reflexivity|]; do 2 eexists;
       (split; [reflexivity|]); simpl; tauto.
  assert (Htok : rawToken_of (authorization req) <> []).
  { intros Z. rewrite Z in Ht. discriminate. }
  rewrite E. clear E.
  fold (endpoint_of req).
  destruct (getUpstreamBase rt (endpoint_of req)) as [endpoint|msg] eqn:Hbase.
  2: { left. unfold endpoint_of in Hbase.
       erewrite forward_refused by exact Hbase.
       split; [reflexivity|]. do 2 eexists. split; [reflexivity|]. simpl. tauto. }
  unfold endpoint_of in Hbase.
  destruct (isOpenAI (model_of req)) eqn:Hfam.
  - erewrite forward_openai by eassumption.
    destruct (new_URL rt (openaiBaseUrl endpoint ++ lit "/chat/completions"))
      as [urlObj|msg] eqn:Hurl.
    2: { left. split; [reflexivity|]. do 2 eexists. split; [reflexivity|].
         simpl. tauto. }
    right. split; [exact Hm|]. split; [exact Hr|]. split; [exact Htok|].
    exists endpoint, urlObj. split; [reflexivity|]. left.
    split; [reflexivity|]. split; [exact Hurl|].
    fold (tryModels_of req).
    destruct (tryLoop rt _ _ _ _ (tryModels_of req) initial_last st)
      as [res st'] eqn:L.
    apply tryLoop_run in L.
    destruct L as [(Z & _)|(init & m & out & Hc & Hmap & Hlen & Hall & Hout)];
      [discriminate Z|].
    set (chat := chatRequest (href urlObj) (openaiHeaders (rawToken_of (authorization req)))
                   (systemInstruction_of req) (userPrompt_of req)) in *.
    assert (Hinit : map fst init
                    = map chat (firstn (List.length init) (tryModels_of req))).
    { apply (f_equal (firstn (List.length init))) in Hmap.
      rewrite firstn_app, length_map, Nat.sub_diag in Hmap.
      rewrite <- (length_map fst init) in Hmap at 1.
      rewrite firstn_all, firstn_O, app_nil_r in Hmap.
      rewrite Hmap, firstn_map, firstn_firstn.
      now rewrite Nat.min_l by lia. }
    assert (Hnth : nth_error (tryModels_of req) (List.length init) = Some m).
    { assert (Hn : nth_error (map fst init ++ [chat m]) (List.length init)
                   = Some (chat m)).
      { rewrite nth_error_app2 by (rewrite length_map; lia).
        rewrite length_map, Nat.sub_diag. reflexivity. }
      rewrite Hmap, nth_error_map, nth_error_firstn in Hn.
      destruct (Nat.ltb_spec (List.length init) (S (List.length init))); [|lia].
      destruct (nth_error (tryModels_of req) (List.length init)) as [m0|];
        [|discriminate].
      cbn in Hn. injection Hn as Hn.
      assert (Hmm : attempted_model (chat m0) = attempted_model (chat m))
        by now rewrite Hn.
      cbn in Hmm. congruence. }
    exists init, m, out. cbv zeta. fold chat.
    assert (Hsnd : forall r : result Response, snd (caught (r, st')) = st').
    { intros [r|msg]; reflexivity. }
    unfold loop_outcome, failure_of, thrown.
    destruct res as [[r|l]|msg]; cbn [caught fst snd];
      (split; [exact Hc|]); (split; [exact Hinit|]); (split; [exact Hnth|]);
      (split; [exact Hall|]);
      (destruct out as [up|msg']; [|congruence]);
      (destruct (ok up); [congruence|]);
      fold (looks_of rt up) in Hout |- *;
      (destruct (looks_of rt up) as [[|]|]; try congruence).
    + destruct Hout as [Hl Hex]. discriminate Hl.
    + destruct Hout as [Hl Hex]. injection Hl as ->. split; [reflexivity | exact Hex].
    + injection Hout as ->. reflexivity.
    + destruct Hout as [Hl Hex]. discriminate Hl.
  - erewrite forward_gemini by eassumption.
    destruct (new_URL rt _) as [urlObj|msg] eqn:Hurl.
    2: { left. split; [reflexivity|]. do 2 eexists. split; [reflexivity|].
         simpl. tauto. }
    right. split; [exact Hm|]. split; [exact Hr|]. split; [exact Htok|].
    exists endpoint, urlObj. split; [reflexivity|]. right.
    split; [reflexivity|]. split; [exact Hurl|]. cbv zeta.
    match goal with
    | |- context [fetch rt ?q (world st)] => set (rq := q)
    end.
    exists (fst (fetch rt rq (world st))).
    unfold gemini_outcome, failure_of, thrown.
    destruct (fetch rt rq (world st)) as [[up|msg] w]; cbn [fst snd];
      [|split; reflexivity].
    destruct (ok up); cbn [negb]; [|split; reflexivity].
    destruct (geminiText rt _); split; reflexivity.
Qed.

(** X13. A request whose endpoint is not a well-formed URL makes no
    upstream call; when it passes the method, field and credential
    checks it is answered 500 with the message Invalid proxyEndpoint,
    whatever message the URL parser gave. *)
Theorem malformed_endpoint_rejected (req : Request) (st : St rt) (msg : jstr) :
  new_URL rt (endpoint_of req) = Throw msg ->
  snd (handler rt req st) = st /\
  (method req = lit "POST" -> missing_required req = false ->
   rawToken_of (authorization req) <> [] ->
   handler rt req st = (thrown (lit "Invalid proxyEndpoint"), st)).
Proof.
  intros Hu.
  assert (G : getUpstreamBase rt (endpoint_of req)
              = Throw (lit "Invalid proxyEndpoint")).
  { unfold getUpstreamBase. now rewrite Hu. }
  destruct (handler_cases req st)
    as [(Hm & E)|[(Hm & Hr & E)|[(Hm & Hr & Ht & E)|(Hm & Hr & Ht & E)]]];
    rewrite E.
  - split; [reflexivity|]. intros Hp. rewrite Hp, jstr_eqb_refl in Hm. discriminate.
  - split; [reflexivity|]. congruence.
  - split; [reflexivity|]. intros _ _ Hne.
    destruct (rawToken_of (authorization req)); [congruence | discriminate].
  - erewrite forward_refused by exact G. split; reflexivity.
Qed.

(** X14. A POST request with its three fields present is answered with
    the 401 missing-credential response exactly when its credential
    is empty, and then no upstream call is made. *)
Theorem missing_credential_iff (req : Request) (st : St rt) :
  method req = lit "POST" -> missing_required req = false ->
  (fst (handler rt req st) = missing_proxy_token <->
   rawToken_of (authorization req) = []) /\
  (rawToken_of (authorization req) = [] ->
   handler rt req st = (missing_proxy_token, st)).
Proof.
  intros Hpost Hreq.
  destruct (handler_cases req st)
    as [(Hm & E)|[(Hm & Hr & E)|[(Hm & Hr & Ht & E)|(Hm & Hr & Ht & E)]]].
  - rewrite Hpost, jstr_eqb_refl in Hm. discriminate.
  - congruence.
  - assert (Z : rawToken_of (authorization req) = []).
    { destruct (rawToken_of (authorization req)); [reflexivity | discriminate]. }
    rewrite E. split; [tauto | auto].
  - assert (Z : rawToken_of (authorization req) <> []).
    { intros Z. rewrite Z in Ht. discriminate. }
    split; [|tauto]. split; [|tauto].
    rewrite E. unfold caught.
    destruct (forward _ _ _ _ _ _ _ _) as [[r|msg] st'] eqn:F; cbn [fst];
      [|discriminate].
    apply forward_answers in F as [(t & u & ->)|(pre & rq & up & _ & _ & ->)];
      discriminate.
Qed.

(** X15. The handler calls the upstream only for a POST request with
    its three fields and a credential, and only after the endpoint
    parsed as a URL whose host name is on the allow-list. *)
Theorem calls_only_after_checks (req : Request) (st : St rt) :
  calls (snd (handler rt req st)) <> calls st ->
  method req = lit "POST" /\ missing_required req = false /\
  rawToken_of (authorization req) <> [] /\
  exists u, new_URL rt (endpoint_of req) = Ok u /\
            allowedHosts_has (hostname u) = true.
Proof.
  intros H.
  destruct (handler_run req st)
    as [(Hs & _)|(Hm & Hr & Ht & endpoint & urlObj & Hbase & _)].
  - rewrite Hs in H. congruence.
  - split; [exact Hm|]. split; [exact Hr|]. split; [exact Ht|].
    unfold getUpstreamBase in Hbase.
    destruct (new_URL rt (endpoint_of req)) as [u|msg]; [|discriminate].
    exists u. split; [reflexivity|].
    destruct (allowedHosts_has (hostname u)); [reflexivity | discriminate].
Qed.

Lemma tryModels_short (req : Request) : List.length (tryModels_of req) <= 4.
Proof.
  unfold tryModels_of. rewrite getModelFallbacks_filter.
  set (m := trim (model_of req)).
  pose proof (filter_length_le (fun x => negb (jstr_eqb x m)) (spec_candidates m)) as L.
  assert (C : List.length (spec_candidates m) <= 3).
  { destruct (spec_candidates_cases m) as [E|[E|[E|(_ & _ & [E|E])]]];
      rewrite E; simpl; lia. }
  change (List.length (model_of req :: filter (fun x => negb (jstr_eqb x m)) (spec_candidates m)))
    with (S (List.length (filter (fun x => negb (jstr_eqb x m)) (spec_candidates m)))).
  lia.
Qed.

(** X16. One request causes at most four upstream calls, and at most
    one when it goes to the Gemini-compatible family; the calls made
    before the request stay in the record. *)
Theorem calls_are_bounded (req : Request) (st : St rt) :
  exists new,
    calls (snd (handler rt req st)) = calls st ++ new /\
    List.length new <= List.length (tryModels_of req) /\
    List.length new <= 4 /\
    (isOpenAI (model_of req) = false -> List.length new <= 1).
Proof.
  pose proof (tryModels_short req) as S4.
  destruct (handler_run req st)
    as [(Hs & _)|(_ & _ & _ & endpoint & urlObj & _ &
                  [(Ho & _ & init & m & out & Hc & _ & Hnth & _)
                  |(Ho & _ & out & Hc & _)])].
  - exists []. rewrite Hs, app_nil_r. simpl. repeat split; lia.
  - exists (init ++ [(chatRequest (href urlObj)
                        (openaiHeaders (rawToken_of (authorization req)))
                        (systemInstruction_of req) (userPrompt_of req) m, out)]).
    split; [exact Hc|]. rewrite length_app. cbn [List.length].
    assert (Hl : List.length init < List.length (tryModels_of req)).
    { apply nth_error_Some. congruence. }
    repeat split; try lia. congruence.
  - eexists. split; [exact Hc|]. cbn [List.length].
    unfold tryModels_of. cbn [List.length]. repeat split; lia.
Qed.

(** The requests of the calls of a fallback loop. *)
Lemma loop_requests (chat : jstr -> FetchRequest)
    (init : list (FetchRequest * result UpstreamRes)) (ms : list jstr)
    (m : jstr) (out : result UpstreamRes) (P : FetchRequest -> Prop) :
  map fst init = map chat (firstn (List.length init) ms) ->
  (forall x, P (chat x)) ->
  Forall (fun c => P (fst c)) (init ++ [(chat m, out)]).
Proof.
  intros Hmap HP. apply Forall_app. split.
  - apply Forall_forall. intros c Hc.
    apply (in_map fst) in Hc. rewrite Hmap in Hc.
    apply in_map_iff in Hc as (x & <- & _). apply HP.
  - constructor; [apply HP | constructor].
Qed.

(** X17. All upstream calls of one request are POST calls to one URL
    with one set of headers. The headers say that the content type and
    the accepted type are application/json, and they carry the
    credential of the request: either as X-API-Key together with
    Authorization Bearer, or as x-goog-api-key alone. *)
Theorem calls_carry_credential (req : Request) (st : St rt) :
  let token := rawToken_of (authorization req) in
  exists new url headers,
    calls (snd (handler rt req st)) = calls st ++ new /\
    Forall (fun c => fetch_method (fst c) = lit "POST" /\
                     fetch_url (fst c) = url /\
                     fetch_headers (fst c) = headers) new /\
    (new <> [] ->
     header (lit "Content-Type") headers = Some (lit "application/json") /\
     header (lit "Accept") headers = Some (lit "application/json") /\
     ((header (lit "X-API-Key") headers = Some token /\
       header (lit "Authorization") headers = Some (lit "Bearer " ++ token) /\
       header (lit "x-goog-api-key") headers = None) \/
      (header (lit "x-goog-api-key") headers = Some token /\
       header (lit "X-API-Key") headers = None /\
       header (lit "Authorization") headers = None))).
Proof.
  cbv zeta.
  destruct (handler_run req st)
    as [(Hs & _)|(_ & _ & _ & endpoint & urlObj & _ &
                  [(Ho & _ & init & m & out & Hc & Hmap & _)
                  |(Ho & _ & out & Hc & _)])].
  - exists [], [], []. rewrite Hs, app_nil_r.
    split; [reflexivity|]. split; [constructor|]. congruence.
  - eexists _, (href urlObj), (openaiHeaders (rawToken_of (authorization req))).
    split; [exact Hc|]. split.
    + apply loop_requests
        with (ms := tryModels_of req)
             (P := fun rq => fetch_method rq = lit "POST" /\
                             fetch_url rq = href urlObj /\
                             fetch_headers rq
                             = openaiHeaders (rawToken_of (authorization req)));
        [exact Hmap|].
      intros x. repeat split.
    + intros _. split; [reflexivity|]. split; [reflexivity|].
      left. repeat split.
  - eexists _, (href urlObj),
      (geminiHeaders (hostname urlObj) (rawToken_of (authorization req))).
    split; [exact Hc|]. split.
    + constructor; [|constructor]. repeat split.
    + intros _. unfold geminiHeaders.
      destruct (jstr_eqb (hostname urlObj) (lit "generativelanguage.googleapis.com")).
      * split; [reflexivity|]. split; [reflexivity|]. right. repeat split.
      * split; [reflexivity|]. split; [reflexivity|]. left. repeat split.
Qed.

Lemma or_else_empty_shape (a : option value) :
  or_else a (VStr []) = VStr [] \/ truthy (Some (or_else a (VStr []))) = true.
Proof.
  unfold or_else. destruct a as [v|]; [|now left].
  destruct (truthy (Some v)) eqn:T; [now right | now left].
Qed.

(** X18. A response with a generated text has status 200, and it is
    sent only after an upstream call that was answered with a success
    status, which is the last call of the request; [usedModel] is one
    of the models that the request may be tried with. The text is
    never null, false or zero: it is the empty string or a truthy
    value. *)
Theorem generated_only_after_success (req : Request) (st : St rt)
    (text : value) (used : jstr) :
  res_json (fst (handler rt req st)) = Generated text used ->
  res_status (fst (handler rt req st)) = 200%Z /\
  In used (tryModels_of req) /\
  (text = VStr [] \/ truthy (Some text) = true) /\
  exists pre rq up,
    calls (snd (handler rt req st)) = calls st ++ pre ++ [(rq, Ok up)] /\
    ok up = true.
Proof.
  intros H.
  destruct (handler_run req st)
    as [(Hs & status & msg & E & _)|(_ & _ & _ & endpoint & urlObj & _ &
                  [(Ho & _ & init & m & out & Hc & _ & Hnth & _ & Hout)
                  |(Ho & _ & out & Hc & Hout)])].
  - rewrite E in H. discriminate.
  - unfold loop_outcome, thrown, failure_of in Hout.
    destruct out as [up|msg]; [|rewrite Hout in H; discriminate].
    destruct (ok up) eqn:Hok.
    + rewrite Hout in H |- *. cbn [res_json res_status] in H |- *.
      injection H as <- <-. split; [reflexivity|].
      split; [eapply nth_error_In; exact Hnth|].
      split; [apply or_else_empty_shape|]. eauto.
    + destruct (looks_of rt up) as [[|]|]; [destruct Hout as [Hout _]| |];
        rewrite Hout in H; discriminate.
  - unfold gemini_outcome, thrown, failure_of in Hout.
    destruct out as [up|msg]; [|rewrite Hout in H; discriminate].
    destruct (ok up) eqn:Hok; cbn [negb] in Hout;
      [|rewrite Hout in H; discriminate].
    destruct (geminiText rt _) as [t|msg] eqn:G; [|rewrite Hout in H; discriminate].
    rewrite Hout in H |- *. cbn [res_json res_status] in H |- *.
    injection H as <- <-. split; [reflexivity|].
    split; [now left|]. split.
    + unfold geminiText in G.
      destruct (geminiParts _) as [[| | | |parts|]|];
        try (injection G as <-; now left).
      destruct (join_with _ _ _) as [[|c s]|]; [| |discriminate];
        injection G as <-; [now left | now right].
    + eexists [], _, up. split; [exact Hc | exact Hok].
Qed.

(** X19. The status of an answer is in the 200 range exactly when the
    answer carries a generated text: an upstream failure is forwarded
    with its own status, which is outside that range, and the errors
    of the handler have status 400, 401, 405 or 500. *)
Theorem status_2xx_iff_generated (req : Request) (st : St rt) :
  is_2xx (res_status (fst (handler rt req st))) = true <->
  exists text used, res_json (fst (handler rt req st)) = Generated text used.
Proof.
  destruct (handler_run req st)
    as [(Hs & status & msg & E & Hin)|(_ & _ & _ & endpoint & urlObj & _ &
                  [(Ho & _ & init & m & out & _ & _ & _ & _ & Hout)
                  |(Ho & _ & out & _ & Hout)])].
  - rewrite E. cbn [res_status res_json]. split.
    + intros H. simpl in Hin.
      destruct Hin as [<-|[<-|[<-|[<-|[]]]]]; discriminate H.
    + intros (t & u & H). discriminate H.
  - unfold loop_outcome, thrown, failure_of, failure in Hout.
    destruct out as [up|msg].
    2: { rewrite Hout. split; [discriminate | intros (t & u & H); discriminate H]. }
    destruct (ok up) eqn:Hok.
    { rewrite Hout. cbn [res_status res_json]; split; [intros _; do 2 eexists; reflexivity | intros _; reflexivity]. }
    destruct (looks_of rt up) as [[|]|]; [destruct Hout as [Hout _]| |];
      rewrite Hout; cbn [res_status res_json];
      (split; [|intros (t & u & H); discriminate H]);
      try discriminate; unfold ok in Hok; unfold is_2xx; congruence.
  - unfold gemini_outcome, thrown, failure_of, failure in Hout.
    destruct out as [up|msg].
    2: { rewrite Hout. split; [discriminate | intros (t & u & H); discriminate H]. }
    destruct (ok up) eqn:Hok; cbn [negb] in Hout.
    + destruct (geminiText rt _) as [t|msg]; rewrite Hout.
      * cbn [res_status res_json]; split; [intros _; do 2 eexists; reflexivity | intros _; reflexivity].
      * split; [discriminate | intros (t & u & H); discriminate H].
    + rewrite Hout. cbn [res_status res_json].
      split; [|intros (t & u & H); discriminate H].
      unfold ok in Hok. unfold is_2xx. congruence.
Qed.

(** The calls that a run adds, in the two shapes they can have. *)
Lemma new_calls (req : Request) (st : St rt)
    (new : list (FetchRequest * result UpstreamRes)) :
  calls (snd (handler rt req st)) = calls st ++ new ->
  new = [] \/
  (exists init rq m out,
     new = init ++ [(rq, out)] /\
     Forall (fun c => exists up, snd c = Ok up /\ ok up = false /\
                                 looks_of rt up = Ok true) init /\
     loop_outcome rt (model_of req) m
       (S (List.length init) = List.length (tryModels_of req)) out
       (fst (handler rt req st))) \/
  (exists rq out,
     new = [(rq, out)] /\
     gemini_outcome rt (model_of req) out (fst (handler rt req st))).
Proof.
  intros H.
  destruct (handler_run req st)
    as [(Hs & _)|(_ & _ & _ & endpoint & urlObj & _ &
                  [(Ho & _ & init & m & out & Hc & _ & _ & Hall & Hout)
                  |(Ho & _ & out & Hc & Hout)])].
  - left. rewrite Hs in H. rewrite <- (app_nil_r (calls st)) in H at 1.
    now apply app_inv_head in H.
  - right. left. rewrite Hc in H. apply app_inv_head in H. subst new. eauto 8.
  - right. right. rewrite Hc in H. apply app_inv_head in H. subst new. eauto.
Qed.

Lemma looks_of_true_404 (up : UpstreamRes) :
  looks_of rt up = Ok true -> up_status up = 404%Z.
Proof.
  unfold looks_of, looksLikeModelNotFound.
  destruct (Z.eqb_spec (up_status up) 404) as [E|_]; [auto | discriminate].
Qed.

Lemma looks_of_not_404 (up : UpstreamRes) :
  up_status up <> 404%Z -> looks_of rt up = Ok false.
Proof.
  intros H. unfold looks_of, looksLikeModelNotFound.
  destruct (Z.eqb_spec (up_status up) 404) as [E|_]; [contradiction | reflexivity].
Qed.

(** X20. A call that throws is never retried: it is the last call of
    the request, and the answer is 500 with the message of the
    exception. *)
Theorem thrown_fetch_ends_run (req : Request) (st : St rt)
    (new : list (FetchRequest * result UpstreamRes)) (rq : FetchRequest)
    (msg : jstr) :
  calls (snd (handler rt req st)) = calls st ++ new ->
  In (rq, Throw msg) new ->
  (exists pre, new = pre ++ [(rq, Throw msg)]) /\
  fst (handler rt req st) = thrown msg.
Proof.
  intros H Hin.
  destruct (new_calls req st new H)
    as [->|[(init & rq' & m & out & -> & Hall & Hout)|(rq' & out & -> & Hout)]].
  - contradiction.
  - apply in_app_iff in Hin as [Hin|[Hin|[]]].
    + rewrite Forall_forall in Hall.
      destruct (Hall _ Hin) as (up & Hup & _). discriminate Hup.
    + injection Hin as -> ->. split; [eauto | exact Hout].
  - destruct Hin as [Hin|[]]. injection Hin as -> ->.
    split; [exists []; reflexivity | exact Hout].
Qed.

(** X21. Only a 404 is retried. Every call that is followed by another
    call of the same request was answered with status 404 and passed
    the model-not-found test; and when the last call was answered with
    a failure status other than 404, the answer of the handler is the
    failure response built from that call. *)
Theorem only_404_is_retried (req : Request) (st : St rt)
    (new : list (FetchRequest * result UpstreamRes)) :
  calls (snd (handler rt req st)) = calls st ++ new ->
  (forall pre c post,
     new = pre ++ c :: post -> post <> [] ->
     exists up, snd c = Ok up /\ up_status up = 404%Z /\
                looks_of rt up = Ok true) /\
  (forall pre rq up,
     new = pre ++ [(rq, Ok up)] -> ok up = false -> up_status up <> 404%Z ->
     fst (handler rt req st) = failure_of rt up (model_of req)).
Proof.
  intros H.
  destruct (new_calls req st new H)
    as [->|[(init & rq' & m & out & -> & Hall & Hout)|(rq' & out & -> & Hout)]].
  - split.
    + intros pre c post E. now destruct pre.
    + intros pre rq up E. now destruct pre.
  - split.
    + intros pre c post E Hpost.
      destruct (exists_last Hpost) as (post' & z & ->).
      change (pre ++ c :: post' ++ [z]) with (pre ++ (c :: post') ++ [z]) in E.
      rewrite app_assoc in E. apply app_inj_tail in E as [E _].
      rewrite Forall_forall in Hall.
      destruct (Hall c) as (up & Hup & _ & Hl).
      { rewrite E. apply in_or_app. right. now left. }
      exists up. split; [exact Hup|]. split; [now apply looks_of_true_404 | exact Hl].
    + intros pre rq up E Hok Hst.
      apply app_inj_tail in E as [_ E]. injection E as -> ->.
      unfold loop_outcome in Hout. rewrite Hok in Hout.
      now rewrite (looks_of_not_404 _ Hst) in Hout.
  - split.
    + intros pre c post E Hpost.
      apply (f_equal (@List.length _)) in E. rewrite length_app in E.
      destruct post; [congruence|]. cbn [List.length] in E. lia.
    + intros pre rq up E Hok Hst.
      change [(rq', out)] with ([] ++ [(rq', out)]) in E.
      apply app_inj_tail in E as [_ E]. injection E as -> ->.
      unfold gemini_outcome in Hout. now rewrite Hok in Hout.
Qed.

(** X22. The thinking configuration (include thoughts, budget 16000)
    is sent exactly with the call of a request that goes to the
    Gemini-compatible family, asks for thinking, and names a model
    that contains the word thinking; no other call carries one. *)
Theorem thinking_config_sent (req : Request) (st : St rt)
    (new : list (FetchRequest * result UpstreamRes)) :
  calls (snd (handler rt req st)) = calls st ++ new ->
  Forall (fun c =>
            thinkingConfig_of (fst c)
            = if negb (isOpenAI (model_of req))
                 && match enableThinking (body_of req) with
                    | Some v => v
                    | None => false
                    end
                 && includes (model_of req) (lit "thinking")
              then Some (true, 16000%Z) else None) new.
Proof.
  intros H.
  destruct (handler_run req st)
    as [(Hs & _)|(_ & _ & _ & endpoint & urlObj & _ &
                  [(Ho & _ & init & m & out & Hc & Hmap & _)
                  |(Ho & _ & out & Hc & _)])].
  - rewrite Hs in H. rewrite <- (app_nil_r (calls st)) in H at 1.
    apply app_inv_head in H. subst new. constructor.
  - rewrite Hc in H. apply app_inv_head in H. subst new. rewrite Ho.
    cbn [negb andb].
    apply loop_requests
      with (ms := tryModels_of req) (P := fun rq => thinkingConfig_of rq = None);
      [exact Hmap | reflexivity].
  - rewrite Hc in H. apply app_inv_head in H. subst new. rewrite Ho.
    cbn [negb andb]. constructor; [reflexivity | constructor].
Qed.

End HandlerRuns.

(* ================================================================== *)
(** * Runs of the handler on concrete requests *)
(* ================================================================== *)

Lemma malformed_endpoint_rejected_witness :
  let req := Stub.post (Some "Bearer k"%string) "gpt-4o" "be brief" "hi"
               (Some "not a url"%string) in
  let st := Stub.start [Stub.answer 200 Stub.chat_hello] in
  new_URL Stub.runtime (endpoint_of req) = Throw (lit "Invalid URL") /\
  method req = lit "POST" /\ missing_required req = false /\
  rawToken_of (authorization req) <> [] /\
  handler Stub.runtime req st = (thrown (lit "Invalid proxyEndpoint"), st).
Proof.
  intros req st.
  assert (U : new_URL Stub.runtime (endpoint_of req) = Throw (lit "Invalid URL"))
    by reflexivity.
  assert (T : rawToken_of (authorization req) <> []).
  { intros E. vm_compute in E. discriminate E. }
  split; [exact U|]. split; [reflexivity|]. split; [reflexivity|].
  split; [exact T|].
  exact (proj2 (@malformed_endpoint_rejected Stub.runtime req st _ U)
           eq_refl eq_refl T).
Defined.

Lemma missing_credential_iff_witness :
  let req := Stub.post (Some "Bearer   "%string) "gpt-4o" "be brief" "hi" None in
  let st := Stub.start [Stub.answer 200 Stub.chat_hello] in
  method req = lit "POST" /\ missing_required req = false /\
  rawToken_of (authorization req) = [] /\
  handler Stub.runtime req st = (missing_proxy_token, st).
Proof.
  intros req st.
  assert (T : rawToken_of (authorization req) = []) by reflexivity.
  split; [reflexivity|]. split; [reflexivity|]. split; [exact T|].
  exact (proj2 (@missing_credential_iff Stub.runtime req st eq_refl eq_refl) T).
Defined.

Lemma calls_only_after_checks_witness :
  let req := Stub.post (Some "Bearer k"%string) "4o-mini" "You are helpful" "hi" None in
  let st := Stub.start [Stub.answer 200 Stub.chat_hello] in
  calls (snd (handler Stub.runtime req st)) <> calls st /\
  method req = lit "POST" /\ missing_required req = false /\
  rawToken_of (authorization req) <> [] /\
  exists u, new_URL Stub.runtime (endpoint_of req) = Ok u /\
            allowedHosts_has (hostname u) = true.
Proof.
  intros req st.
  assert (C : calls (snd (handler Stub.runtime req st)) <> calls st).
  { intros E. vm_compute in E. discriminate E. }
  split; [exact C|].
  exact (@calls_only_after_checks Stub.runtime req st C).
Defined.

Lemma generated_only_after_success_witness :
  let req := Stub.post (Some "Bearer k"%string) "4o-mini" "You are helpful" "hi" None in
  let st := Stub.start [Stub.answer 404 Stub.err_model_not_found;
                        Stub.answer 200 Stub.chat_hello] in
  res_json (fst (handler Stub.runtime req st))
  = Generated (VStr (lit "hello")) (lit "gpt-4o") /\
  res_status (fst (handler Stub.runtime req st)) = 200%Z /\
  In (lit "gpt-4o") (tryModels_of req).
Proof.
  intros req st.
  assert (G : res_json (fst (handler Stub.runtime req st))
              = Generated (VStr (lit "hello")) (lit "gpt-4o"))
    by (vm_compute; reflexivity).
  split; [exact G|].
  destruct (@generated_only_after_success Stub.runtime req st _ _ G)
    as (S200 & Hin & _).
  split; [exact S200 | exact Hin].
Defined.

Lemma thrown_fetch_ends_run_witness :
  let req := Stub.post (Some "Bearer k"%string) "4o-mini" "You are helpful" "hi" None in
  let st := Stub.start [] in
  let rq := chatRequest (lit "https://api.vectorengine.ai/v1/chat/completions")
              (openaiHeaders (lit "k")) (lit "You are helpful") (lit "hi")
              (lit "gpt-4o-mini") in
  let new := [(rq, Throw (lit "fetch failed"))] in
  calls (snd (handler Stub.runtime req st)) = calls st ++ new /\
  In (rq, Throw (lit "fetch failed")) new /\
  fst (handler Stub.runtime req st) = thrown (lit "fetch failed").
Proof.
  intros req st rq new.
  assert (H : calls (snd (handler Stub.runtime req st)) = calls st ++ new)
    by (vm_compute; reflexivity).
  assert (I : In (rq, Throw (lit "fetch failed")) new) by (left; reflexivity).
  split; [exact H|]. split; [exact I|].
  exact (proj2 (@thrown_fetch_ends_run Stub.runtime req st new rq _ H I)).
Defined.

Lemma only_404_is_retried_witness :
  let req := Stub.post (Some "Bearer k"%string) "4o-mini" "You are helpful" "hi" None in
  let st := Stub.start [Stub.answer 404 Stub.err_model_not_found;
                        Stub.answer 500 Stub.err_overloaded] in
  let chat := chatRequest (lit "https://api.vectorengine.ai/v1/chat/completions")
                (openaiHeaders (lit "k")) (lit "You are helpful") (lit "hi") in
  let first := (chat (lit "gpt-4o-mini"), Stub.answer 404 Stub.err_model_not_found) in
  let up := {| up_status := 500;
               up_content_type := Some (lit "application/json");
               up_text := Stub.render Stub.err_overloaded |} in
  let new := [first; (chat (lit "gpt-4o"), Ok up)] in
  calls (snd (handler Stub.runtime req st)) = calls st ++ new /\
  (exists up', snd first = Ok up' /\ up_status up' = 404%Z /\
               looks_of Stub.runtime up' = Ok true) /\
  ok up = false /\ up_status up <> 404%Z /\
  fst (handler Stub.runtime req st) = failure_of Stub.runtime up (model_of req).
Proof.
  intros req st chat first up new.
  assert (H : calls (snd (handler Stub.runtime req st)) = calls st ++ new)
    by (vm_compute; reflexivity).
  assert (N : up_status up <> 404%Z) by discriminate.
  destruct (@only_404_is_retried Stub.runtime req st new H) as [retried surfaced].
  split; [exact H|]. split.
  - apply (retried [] first [(chat (lit "gpt-4o"), Ok up)]); [reflexivity | discriminate].
  - split; [reflexivity|]. split; [exact N|].
    exact (surfaced [first] (chat (lit "gpt-4o")) up eq_refl eq_refl N).
Defined.

Lemma thinking_config_sent_witness :
  let st := StubThinking.start [Stub.answer 200 Stub.gemini_ab] in
  let rq := geminiRequest StubThinking.thinking_url
              (lit "gemini-2.0-flash-thinking-exp") (lit "be brief") (lit "hi")
              true (lit "k") in
  let new := [(rq, Stub.answer 200 Stub.gemini_ab)] in
  calls (snd (handler StubThinking.runtime StubThinking.request st)) = calls st ++ new /\
  thinkingConfig_of rq = Some (true, 16000%Z).
Proof.
  intros st rq new.
  assert (H : calls (snd (handler StubThinking.runtime StubThinking.request st))
              = calls st ++ new) by (vm_compute; reflexivity).
  split; [exact H|].
  pose proof (@thinking_config_sent StubThinking.runtime StubThinking.request st new H)
    as F.
  apply Forall_inv in F. exact F.
Defined.

(* ================================================================== *)
(** * The message of a failure *)
(* ================================================================== *)

Lemma or_else_truthy_default (a : option value) (b : value) :
  truthy (Some b) = true -> truthy (Some (or_else a b)) = true.
Proof.
  intros Hb. unfold or_else. destruct a as [v|]; [|exact Hb].
  destruct (truthy (Some v)) eqn:T; [exact T | exact Hb].
Qed.

(** X23. The [error] of a failure response is never empty, null, false
    or zero, and its [detail] is never null. *)
Theorem failure_error_is_truthy (rt : Runtime) (req : Request) (st : St rt)
    e us ct d tm :
  res_json (fst (handler rt req st)) = UpstreamFailure e us ct d tm ->
  truthy (Some e) = true /\ d <> VNull.
Proof.
  intros H.
  destruct (handler_failure _ _ H) as (pre & rq & up & _ & _ & E).
  rewrite E in H. unfold failure in H. cbn [res_json] in H.
  injection H as <- _ _ <- _. split.
  - unfold upstreamMessage. repeat apply or_else_truthy_default. reflexivity.
  - unfold nullish_else. destruct (parse_or_null rt (up_text up)); discriminate.
Qed.

Lemma failure_error_is_truthy_witness :
  let req := Stub.post (Some "Bearer k"%string) "gemini-1.5-pro" "be brief" "hi" None in
  let st := Stub.start [Ok {| up_status := 502; up_content_type := None;
                              up_text := lit "  " |}] in
  res_json (fst (handler Stub.runtime req st))
  = UpstreamFailure (VStr (lit "Upstream error")) 502 [] (VStr (lit "  "))
      [lit "gemini-1.5-pro"; lit "gemini-1.5-flash"; lit "gemini-2.0-flash-exp"] /\
  truthy (Some (VStr (lit "Upstream error"))) = true /\
  VStr (lit "  ") <> VNull.
Proof.
  intros req st.
  assert (F : res_json (fst (handler Stub.runtime req st))
              = UpstreamFailure (VStr (lit "Upstream error")) 502 []
                  (VStr (lit "  "))
                  [lit "gemini-1.5-pro"; lit "gemini-1.5-flash";
                   lit "gemini-2.0-flash-exp"])
    by (vm_compute; reflexivity).
  split; [exact F|].
  exact (@failure_error_is_truthy Stub.runtime req st _ _ _ _ _ F).
Defined.

(** X24. The message that the fallback loop tests is the message that
    a failure response reports, except when the body gives no message
    at all: then the loop tests the empty string and the response
    reports the fixed text Upstream error. *)
Theorem tested_message_is_reported (json : value) (raw : jstr) :
  (truthy (Some (loopMessage json raw)) = true ->
   upstreamMessage json raw = loopMessage json raw) /\
  (truthy (Some (loopMessage json raw)) = false ->
   loopMessage json raw = VStr [] /\
   upstreamMessage json raw = VStr (lit "Upstream error")).
Proof.
  unfold upstreamMessage, loopMessage.
  set (a := get (get (Some json) (lit "error")) (lit "message")).
  set (b := get (Some json) (lit "message")).
  destruct (truthy a) eqn:Ta.
  { pose proof (or_else_truthy a (or_else b (VStr (raw_excerpt raw))) Ta) as E1.
    pose proof (or_else_truthy a
                  (or_else b (or_else (Some (VStr (raw_excerpt raw)))
                                (VStr (lit "Upstream error")))) Ta) as E2.
    split.
    - intros _. congruence.
    - intros F. rewrite E1 in F. congruence. }
  rewrite !(or_else_falsy a _ Ta).
  destruct (truthy b) eqn:Tb.
  { pose proof (or_else_truthy b (VStr (raw_excerpt raw)) Tb) as E1.
    pose proof (or_else_truthy b (or_else (Some (VStr (raw_excerpt raw)))
                                    (VStr (lit "Upstream error"))) Tb) as E2.
    split.
    - intros _. congruence.
    - intros F. rewrite E1 in F. congruence. }
  rewrite !(or_else_falsy b _ Tb).
  unfold or_else. cbn [truthy].
  destruct (raw_excerpt raw) as [|c s]; cbn [is_empty negb].
  - split; [discriminate | auto].
  - split; [reflexivity | discriminate].
Qed.

Lemma tested_message_is_reported_witness :
  truthy (Some (loopMessage Stub.err_overloaded [])) = true /\
  upstreamMessage Stub.err_overloaded [] = VStr (lit "overloaded") /\
  truthy (Some (loopMessage VNull (lit " "))) = false /\
  upstreamMessage VNull (lit " ") = VStr (lit "Upstream error").
Proof.
  split; [reflexivity|]. split.
  - exact (proj1 (tested_message_is_reported Stub.err_overloaded []) eq_refl).
  - split; [reflexivity|].
    exact (proj2 (proj2 (tested_message_is_reported VNull (lit " ")) eq_refl)).
Defined.
